(** * LLM-Summarizer: chunking, map-reduce summarisation and quiz parsing

    A shallow embedding of [config.py], [modules/text_processor.py],
    [modules/ai_engine.py] and of [process_content] in [app.py], followed by
    the properties of the specification that hold (or fail) on that code.
    The extractors of [modules/youtube_extractor.py] and
    [modules/document_parser.py] and the model filter of [main] are embedded
    as well, with further properties of the code at the end. *)

From Stdlib Require Import List ZArith NArith Bool Ascii String DecimalString Lia.
Import ListNotations.

Local Open Scope Z_scope.

(** ** Python strings

    A Python [str] is a sequence of Unicode code points and [len] counts
    code points, so a string is a list of code points here. *)

Module Py.

Definition char := N.
Definition str := list char.

(** A literal of the source, character by character (the literals written
    this way are ASCII; others are given by their code points). *)
Definition lit (s : string) : str := map N_of_ascii (list_ascii_of_string s).

Definition len {A : Type} (s : list A) : Z := Z.of_nat (List.length s).

Fixpoint str_eqb (a b : str) : bool :=
  match a, b with
  | [], [] => true
  | x :: a', y :: b' => N.eqb x y && str_eqb a' b'
  | _, _ => false
  end.

(** [sep.join(parts)] *)
Fixpoint join (sep : str) (parts : list str) : str :=
  match parts with
  | [] => []
  | [p] => p
  | p :: rest => p ++ sep ++ join sep rest
  end.

(** [str(n)] for an [int]. *)
Definition str_of_int (n : Z) : str :=
  lit (NilZero.string_of_int (Z.to_int n)).

(** Truthiness of a [str]: [not s] holds exactly for the empty string. *)
Definition truthy_str (s : str) : bool :=
  match s with [] => false | _ :: _ => true end.

(** The double quote, which a literal cannot hold. *)
Definition dq : string := String "034"%char EmptyString.

(** Exceptions caught by [except Exception as e], carried as [str(e)]. *)
Inductive exn : Type := Raised (msg : str).

Definition str_of_exn (e : exn) : str := match e with Raised m => m end.

Inductive result (A : Type) : Type :=
| Ok (a : A)
| Raise (e : exn).
Arguments Ok {A} a.
Arguments Raise {A} e.

End Py.
Import Py.

(** ** [config.py] *)

Module config.

Definition CHUNK_SIZE : Z := 4000.
Definition CHUNK_OVERLAP : Z := 200.
Definition DEFAULT_NUM_QUESTIONS : Z := 5.
Definition MAX_QUESTIONS : Z := 10.

Inductive provider := gemini | deepseek.

Record model_config := {
  provider_of : provider;
  model_name_of : str;
  api_key_env : str
}.

Definition AVAILABLE_MODELS : list (str * model_config) :=
  [ (lit "Gemini 2.5 Pro",
      {| provider_of := gemini; model_name_of := lit "gemini-2.5-pro";
         api_key_env := lit "GEMINI_API_KEY" |});
    (lit "Gemini 2.5 Flash",
      {| provider_of := gemini; model_name_of := lit "gemini-2.5-flash";
         api_key_env := lit "GEMINI_API_KEY" |});
    (lit "Gemini 1.5 Flash",
      {| provider_of := gemini; model_name_of := lit "gemini-1.5-flash";
         api_key_env := lit "GEMINI_API_KEY" |});
    (lit "DeepSeek Chat",
      {| provider_of := deepseek; model_name_of := lit "deepseek-chat";
         api_key_env := lit "DEEPSEEK_API_KEY" |});
    (lit "DeepSeek Reasoner",
      {| provider_of := deepseek; model_name_of := lit "deepseek-reasoner";
         api_key_env := lit "DEEPSEEK_API_KEY" |}) ].

Definition DEFAULT_MODEL : str := lit "Gemini 2.5 Pro".

(** [AVAILABLE_MODELS[name]], [None] when [name not in AVAILABLE_MODELS]. *)
Fixpoint lookup (name : str) (d : list (str * model_config)) : option model_config :=
  match d with
  | [] => None
  | (k, v) :: d' => if str_eqb k name then Some v else lookup name d'
  end.

End config.

(** ** What the program does not own

    The chat-model clients, the third-party text splitter and the process
    environment are outside the repository.  They are the fields of one
    interface; every definition below is parametric in it. *)

(** The client object [get_llm] builds (both are created with
    [temperature=0.3]). *)
Inductive LLM : Type :=
| ChatGoogleGenerativeAI (model google_api_key : str)
| ChatOpenAI (model api_key base_url : str).

(** The call trace: which functions of the program were entered, which
    prompts reached a model and what came back, and what was shown to the
    user, in order.  It is ghost state: the program does not read it. *)
Inductive fn :=
| F_summarize_text | F_summarize_long_text | F_chunk_text | F_generate_quiz.

Inductive event : Type :=
| Enter (f : fn)
| Invoke (llm : LLM) (prompt : str) (reply : result str)
| StError (msg : str)
| StWarning (msg : str)
| StSuccess (msg : str)
| StRerun.

(** The dictionary an extractor returns, its keys prefixed; a key that is
    absent is [None]. *)
Record extraction := {
  ex_success : bool;
  ex_text : str;
  ex_error : option str;
  ex_language : option str;
  ex_pages : option Z;
  ex_slides : option Z
}.

(** An uploaded file: its [name] and its bytes. *)
Record uploaded_file := { file_name : str; file_bytes : list N }.

Class Externals : Type := {
  (** The environment variables [GEMINI_API_KEY] and [DEEPSEEK_API_KEY], the
      empty string when unset. *)
  GEMINI_API_KEY : str;
  DEEPSEEK_API_KEY : str;
  (** [(prompt | llm | StrOutputParser()).invoke]: the text the model
      answers, or the provider error it raises; it may depend on everything
      that happened before the call. *)
  model_reply : list event -> LLM -> str -> result str;
  (** [RecursiveCharacterTextSplitter(chunk_size, chunk_overlap,
      length_function=len, separators).split_text(text)] *)
  split_text : Z -> Z -> list str -> str -> result (list str);
  (** The two extractors, which reach the network and the file parsers. *)
  get_transcript_from_url : str -> extraction;
  parse_document : uploaded_file -> str -> extraction
}.

(** ** Effects: a trace and exceptions

    A computation reads the history so far and returns its outcome with the
    events it added. *)

Module Eff.

Definition M (A : Type) : Type := list event -> result A * list event.

Definition ret {A} (a : A) : M A := fun _ => (Ok a, []).

Definition bind {A B} (m : M A) (k : A -> M B) : M B :=
  fun h => match m h with
           | (Ok a, e1) => let (r, e2) := k a (h ++ e1) in (r, e1 ++ e2)
           | (Raise e, e1) => (Raise e, e1)
           end.

Definition lift {A} (r : result A) : M A := fun _ => (r, []).

(** [try: body except Exception as e: handler(e)] *)
Definition try_except {A} (body : M A) (handler : exn -> M A) : M A :=
  fun h => match body h with
           | (Ok a, e1) => (Ok a, e1)
           | (Raise e, e1) => let (r, e2) := handler e (h ++ e1) in (r, e1 ++ e2)
           end.

Definition emit (ev : event) : M unit := fun _ => (Ok tt, [ev]).

Definition enter (f : fn) : M unit := emit (Enter f).

(** One model invocation: the model answers or raises, and the call is
    recorded with what came back. *)
Definition invoke {world : Externals} (llm : LLM) (prompt : str) : M str :=
  fun h => let r := model_reply h llm prompt in (r, [Invoke llm prompt r]).

(** The prompts that reached a model, and the exceptions models raised. *)
Fixpoint invocations (evs : list event) : list str :=
  match evs with
  | [] => []
  | Invoke _ p _ :: evs' => p :: invocations evs'
  | _ :: evs' => invocations evs'
  end.

Fixpoint failures (evs : list event) : list exn :=
  match evs with
  | [] => []
  | Invoke _ _ (Raise e) :: evs' => e :: failures evs'
  | _ :: evs' => failures evs'
  end.

End Eff.
Import Eff.

Declare Scope eff_scope.
Delimit Scope eff_scope with eff.
Notation "x <- m ;; k" := (bind m (fun x => k))
  (at level 61, m at next level, right associativity) : eff_scope.
Notation "m ;;; k" := (bind m (fun _ => k))
  (at level 61, right associativity) : eff_scope.
Local Open Scope eff_scope.

(** ** String methods and substitutions of the standard library *)

Module PyStr.

(** [c.isspace()], which is also what [\s] matches in a [str] pattern and
    what [strip()] removes: the 29 whitespace code points. *)
Definition isspace (c : char) : bool :=
  ((9 <=? c) && (c <=? 13) || (28 <=? c) && (c <=? 32) || (c =? 133) || (c =? 160)
   || (c =? 5760) || (8192 <=? c) && (c <=? 8202) || (c =? 8232) || (c =? 8233)
   || (c =? 8239) || (c =? 8287) || (c =? 12288))%N.

Fixpoint lstrip (s : str) : str :=
  match s with
  | x :: s' => if isspace x then lstrip s' else s
  | [] => []
  end.

Definition rstrip (s : str) : str := rev (lstrip (rev s)).

(** [s.strip()] *)
Definition strip (s : str) : str := rstrip (lstrip s).

(** [s.startswith(p)] *)
Fixpoint startswith (p s : str) : bool :=
  match p, s with
  | [], _ => true
  | a :: p', b :: s' => N.eqb a b && startswith p' s'
  | _ :: _, [] => false
  end.

(** [s.endswith(p)] *)
Definition endswith (p s : str) : bool := startswith (rev p) (rev s).

(** [needle in hay] *)
Fixpoint contains (needle hay : str) : bool :=
  startswith needle hay ||
  match hay with
  | [] => false
  | _ :: hay' => contains needle hay'
  end.

(** [re.sub(r'\s+', ' ', s)]: every maximal run of whitespace becomes one
    space.  [in_run] tells that the run being read has its space already. *)
Fixpoint collapse (in_run : bool) (s : str) : str :=
  match s with
  | [] => []
  | x :: s' =>
      if isspace x then
        if in_run then collapse true s' else 32%N :: collapse true s'
      else x :: collapse false s'
  end.

Definition sub_whitespace (s : str) : str := collapse false s.

(** What a run of [n] line feeds becomes under [re.sub(r'\n{3,}', '\n\n', s)]:
    two of them when there are three or more, itself otherwise. *)
Definition squeezed (n : nat) : str :=
  if (3 <=? n)%nat then [10%N; 10%N] else repeat 10%N n.

(** [re.sub(r'\n{3,}', '\n\n', s)], with the number of line feeds just
    read. *)
Fixpoint squeeze (run : nat) (s : str) : str :=
  match s with
  | [] => squeezed run
  | x :: s' =>
      if N.eqb x 10 then squeeze (S run) s'
      else squeezed run ++ x :: squeeze 0 s'
  end.

Definition sub_newlines (s : str) : str := squeeze 0 s.

End PyStr.

(** ** [modules/text_processor.py] *)

Module text_processor.
Section WithExternals.
Context {world : Externals}.

Definition separators : list str :=
  [ [10%N; 10%N]; [10%N]; lit ". "; lit " "; [] ].

Definition opt_default (o : option Z) (d : Z) : Z :=
  match o with Some v => v | None => d end.

Definition chunk_text (text : str) (chunk_size chunk_overlap : option Z)
  : result (list str) :=
  let chunk_size := opt_default chunk_size config.CHUNK_SIZE in
  let chunk_overlap := opt_default chunk_overlap config.CHUNK_OVERLAP in
  if len text <=? chunk_size then Ok [text]
  else split_text chunk_size chunk_overlap separators text.

(** [len(text) // 4] *)
Definition estimate_tokens (text : str) : Z := len text / 4.

Definition clean_text (text : str) : str :=
  (* Remove excessive whitespace *)
  let text := PyStr.sub_whitespace text in
  (* Remove excessive newlines *)
  let text := PyStr.sub_newlines text in
  PyStr.strip text.

End WithExternals.
End text_processor.

(** ** The standard library's [json.loads] and [re.search]

    [json.loads] of a [str] with the default decoder: RFC 8259 JSON with
    whitespace among space, tab, line feed and carriage return, the
    constants [NaN], [Infinity] and [-Infinity], and control characters
    refused inside strings.  Every way it fails is a [JSONDecodeError].
    The interpreter's limits are not modelled: an integer literal of more
    than 4300 digits and a nesting deeper than the recursion limit make
    CPython raise a [ValueError] and a [RecursionError], which are no
    [JSONDecodeError]; documents within those limits are the range of this
    model. *)

Module json.

(** A [float], kept as the decimal numeral it was read from: [FDec neg m e]
    is the double nearest to [(-1)^neg * m * 10^e], an infinity when that is
    out of range. *)
Inductive float : Type :=
| FDec (neg : bool) (mant : N) (exp10 : Z)
| FNaN
| FInf (neg : bool).

(** The Python values a JSON document decodes to. *)
#[warnings="-register-all"] Inductive value : Type :=
| VNone
| VBool (b : bool)
| VInt (n : Z)
| VFloat (f : float)
| VStr (s : str)
| VList (items : list value)
| VDict (pairs : list (str * value)).

(** The nearest double is [0.0] exactly when the numeral is at most half the
    least subnormal, [2^-1075] (ties go to the even neighbour, zero). *)
Definition float_is_zero (f : float) : bool :=
  match f with
  | FDec _ m e =>
      if (m =? 0)%N then true
      else if 0 <=? e then false
      else Z.of_N m * 2 ^ 1075 <=? 10 ^ (- e)
  | FNaN | FInf _ => false
  end.

(** [bool(v)], what [if v:] tests. *)
Definition truthy (v : value) : bool :=
  match v with
  | VNone => false
  | VBool b => b
  | VInt n => negb (n =? 0)
  | VFloat f => negb (float_is_zero f)
  | VStr s => truthy_str s
  | VList items => match items with [] => false | _ :: _ => true end
  | VDict pairs => match pairs with [] => false | _ :: _ => true end
  end.

(** [d[k] = v] on a dict kept in insertion order. *)
Fixpoint dict_set (k : str) (v : value) (d : list (str * value)) : list (str * value) :=
  match d with
  | [] => [(k, v)]
  | (k', v') :: d' => if str_eqb k' k then (k', v) :: d' else (k', v') :: dict_set k v d'
  end.

(** [dict(pairs)] *)
Definition dict_of_pairs (pairs : list (str * value)) : list (str * value) :=
  fold_left (fun d kv => dict_set (fst kv) (snd kv) d) pairs [].

Definition is_ (x : char) (a : ascii) : bool := N.eqb x (N_of_ascii a).

Definition is_ws (x : char) : bool :=
  is_ x " " || N.eqb x 9 || N.eqb x 10 || N.eqb x 13.

Fixpoint skip_ws (s : str) : str :=
  match s with
  | x :: s' => if is_ws x then skip_ws s' else s
  | [] => []
  end.

(** [s[idx:idx+len(p)] == p], giving what follows. *)
Fixpoint after_prefix (p s : str) : option str :=
  match p, s with
  | [], _ => Some s
  | a :: p', b :: s' => if N.eqb a b then after_prefix p' s' else None
  | _ :: _, [] => None
  end.

Definition is_digit (x : char) : bool := (48 <=? x)%N && (x <=? 57)%N.

Fixpoint span_digits (s : str) : list char * str :=
  match s with
  | x :: s' => if is_digit x then let (ds, r) := span_digits s' in (x :: ds, r)
               else ([], s)
  | [] => ([], [])
  end.

(** The number a run of decimal digits denotes. *)
Definition nat_of_digits (ds : list char) : N :=
  fold_left (fun acc d => (10 * acc + (d - 48))%N) ds 0%N.

(** [NUMBER_RE], group by group.  The integer part is an optional minus
    sign and either a single 0 or a digit 1-9 with any digits after it. *)
Definition number_sign (s : str) : bool * str :=
  match s with
  | x :: s' => if is_ x "-" then (true, s') else (false, s)
  | [] => (false, s)
  end.

Definition number_integer (s : str) : option (list char * str) :=
  match s with
  | x :: s' =>
      if is_ x "0" then Some ([x], s')
      else if is_digit x then let (ds, r) := span_digits s' in Some (x :: ds, r)
      else None
  | [] => None
  end.

(** The optional fraction: a point and one or more digits. *)
Definition number_frac (s : str) : option (list char) * str :=
  match s with
  | x :: r =>
      if is_ x "." then
        match span_digits r with
        | ([], _) => (None, s)
        | (fs, r') => (Some fs, r')
        end
      else (None, s)
  | [] => (None, s)
  end.

(** The optional exponent: e or E, an optional sign, one or more digits. *)
Definition number_exp (s : str) : option Z * str :=
  match s with
  | x :: r =>
      if is_ x "e" || is_ x "E" then
        let (eneg, r') := match r with
                          | y :: r'' => if is_ y "-" then (true, r'')
                                        else if is_ y "+" then (false, r'')
                                        else (false, r)
                          | [] => (false, r)
                          end in
        match span_digits r' with
        | ([], _) => (None, s)
        | (es, r'') =>
            let e := Z.of_N (nat_of_digits es) in
            (Some (if eneg then - e else e), r'')
        end
      else (None, s)
  | [] => (None, s)
  end.

(** The value is [int] of the integer part when the other two groups are
    absent, and [float] of the three otherwise. *)
Definition match_number (s : str) : option (value * str) :=
  let (neg, s1) := number_sign s in
  match number_integer s1 with
  | None => None
  | Some (ids, r1) =>
      let (frac, r2) := number_frac r1 in
      let (exp, r3) := number_exp r2 in
      match frac, exp with
      | None, None =>
          let n := Z.of_N (nat_of_digits ids) in
          Some (VInt (if neg then - n else n), r3)
      | _, _ =>
          let fs := match frac with Some fs => fs | None => [] end in
          let e := match exp with Some e => e | None => 0 end in
          Some (VFloat (FDec neg (nat_of_digits (ids ++ fs)) (e - len fs)), r3)
      end
  end.

Definition hex_digit (x : char) : option N :=
  if is_digit x then Some (x - 48)%N
  else if (65 <=? x)%N && (x <=? 70)%N then Some (x - 55)%N
  else if (97 <=? x)%N && (x <=? 102)%N then Some (x - 87)%N
  else None.

(** [_decode_uXXXX] on the four characters after [\u]. *)
Definition decode_uXXXX (a b c d : char) : option N :=
  match hex_digit a, hex_digit b, hex_digit c, hex_digit d with
  | Some x, Some y, Some z, Some w => Some (((x * 16 + y) * 16 + z) * 16 + w)%N
  | _, _, _, _ => None
  end.

(** The [BACKSLASH] table. *)
Definition BACKSLASH (esc : char) : option char :=
  if is_ esc "034" then Some 34%N
  else if is_ esc "\" then Some 92%N
  else if is_ esc "/" then Some 47%N
  else if is_ esc "b" then Some 8%N
  else if is_ esc "f" then Some 12%N
  else if is_ esc "n" then Some 10%N
  else if is_ esc "r" then Some 13%N
  else if is_ esc "t" then Some 9%N
  else None.

Definition is_high_surrogate (u : N) : bool := (55296 <=? u)%N && (u <=? 56319)%N.
Definition is_low_surrogate (u : N) : bool := (56320 <=? u)%N && (u <=? 57343)%N.

(** [scanstring(s, end, strict=True)], from just after the opening quote:
    the decoded string and what follows the closing quote. *)
Fixpoint scanstring (s : str) : option (str * str) :=
  let cons_to (x : char) (r : option (str * str)) :=
    match r with Some (t, rest) => Some (x :: t, rest) | None => None end in
  match s with
  | [] => None
  | x :: s1 =>
      if is_ x "034" then Some ([], s1)
      else if is_ x "\" then
        match s1 with
        | [] => None
        | esc :: s2 =>
            if is_ esc "u" then
              match s2 with
              | a :: b :: c :: d :: s3 =>
                  match decode_uXXXX a b c d with
                  | None => None
                  | Some uni =>
                      match s3 with
                      | bs :: u :: a' :: b' :: c' :: d' :: s4 =>
                          if is_high_surrogate uni && is_ bs "\" && is_ u "u" then
                            match decode_uXXXX a' b' c' d' with
                            | None => None
                            | Some uni2 =>
                                if is_low_surrogate uni2
                                then cons_to (65536 + ((uni - 55296) * 1024 + (uni2 - 56320)))%N
                                             (scanstring s4)
                                else cons_to uni (scanstring s3)
                            end
                          else cons_to uni (scanstring s3)
                      | _ => cons_to uni (scanstring s3)
                      end
                  end
              | _ => None
              end
            else
              match BACKSLASH esc with
              | Some ch => cons_to ch (scanstring s2)
              | None => None
              end
        end
      else if (x <? 32)%N then None
      else cons_to x (scanstring s1)
  end.

(** The outcome of scanning one value: the value and what follows it, an
    error, or the budget for nesting and repetition spent. *)
Inductive scan : Type :=
| Scanned (v : value) (rest : str)
| Invalid
| OutOfFuel.

(** The [while True] loop of [JSONArray], entered before an element, with
    the values read so far. *)
Fixpoint array_loop (scan_once : str -> scan) (fuel : nat) (s : str)
    (values : list value) : scan :=
  match fuel with
  | O => OutOfFuel
  | S fuel =>
      match scan_once s with
      | Scanned v rest =>
          match skip_ws rest with
          | x :: rest' =>
              if is_ x "]" then Scanned (VList (values ++ [v])) rest'
              else if is_ x ","
              then array_loop scan_once fuel (skip_ws rest') (values ++ [v])
              else Invalid
          | [] => Invalid
          end
      | Invalid => Invalid
      | OutOfFuel => OutOfFuel
      end
  end.

(** [JSONArray], from just after the opening bracket. *)
Definition JSONArray (scan_once : str -> scan) (fuel : nat) (s : str) : scan :=
  match skip_ws s with
  | x :: rest =>
      if is_ x "]" then Scanned (VList []) rest
      else array_loop scan_once fuel (x :: rest) []
  | [] => Invalid
  end.

(** The [while True] loop of [JSONObject], entered just after the opening
    quote of a key, with the pairs read so far. *)
Fixpoint object_loop (scan_once : str -> scan) (fuel : nat) (s : str)
    (pairs : list (str * value)) : scan :=
  match fuel with
  | O => OutOfFuel
  | S fuel =>
      match scanstring s with
      | None => Invalid
      | Some (key, r1) =>
          match skip_ws r1 with
          | colon :: r2 =>
              if is_ colon ":" then
                match scan_once (skip_ws r2) with
                | Scanned v r3 =>
                    match skip_ws r3 with
                    | x :: r4 =>
                        if is_ x "}" then
                          Scanned (VDict (dict_of_pairs (pairs ++ [(key, v)]))) r4
                        else if is_ x "," then
                          match skip_ws r4 with
                          | q :: r5 =>
                              if is_ q "034"
                              then object_loop scan_once fuel r5 (pairs ++ [(key, v)])
                              else Invalid
                          | [] => Invalid
                          end
                        else Invalid
                    | [] => Invalid
                    end
                | Invalid => Invalid
                | OutOfFuel => OutOfFuel
                end
              else Invalid
          | [] => Invalid
          end
      end
  end.

(** [JSONObject], from just after the opening brace. *)
Definition JSONObject (scan_once : str -> scan) (fuel : nat) (s : str) : scan :=
  match skip_ws s with
  | x :: rest =>
      if is_ x "}" then Scanned (VDict []) rest
      else if is_ x "034" then object_loop scan_once fuel rest []
      else Invalid
  | [] => Invalid
  end.

(** The last branches of [_scan_once]: the three literals, a number, the
    three constants, in that order. *)
Definition scan_atom (s : str) : scan :=
  match after_prefix (lit "null") s, after_prefix (lit "true") s,
        after_prefix (lit "false") s with
  | Some rest, _, _ => Scanned VNone rest
  | _, Some rest, _ => Scanned (VBool true) rest
  | _, _, Some rest => Scanned (VBool false) rest
  | None, None, None =>
      match match_number s with
      | Some (v, rest) => Scanned v rest
      | None =>
          match after_prefix (lit "NaN") s, after_prefix (lit "Infinity") s,
                after_prefix (lit "-Infinity") s with
          | Some rest, _, _ => Scanned (VFloat FNaN) rest
          | _, Some rest, _ => Scanned (VFloat (FInf false)) rest
          | _, _, Some rest => Scanned (VFloat (FInf true)) rest
          | None, None, None => Invalid
          end
      end
  end.

(** [_scan_once]: a string, an object, an array or an atom, by the first
    character. *)
Fixpoint scan_once (fuel : nat) (s : str) : scan :=
  match fuel with
  | O => OutOfFuel
  | S fuel =>
      match s with
      | [] => Invalid
      | nextchar :: s1 =>
          if is_ nextchar "034" then
            match scanstring s1 with
            | Some (t, rest) => Scanned (VStr t) rest
            | None => Invalid
            end
          else if is_ nextchar "{" then JSONObject (scan_once fuel) fuel s1
          else if is_ nextchar "[" then JSONArray (scan_once fuel) fuel s1
          else scan_atom s
      end
  end.

(** Enough for any document of that length (see [loads_fuel_enough]). *)
Definition fuel_for (s : str) : nat := S (List.length s).

(** [json.loads(s)]; [None] is [JSONDecodeError]. *)
Definition loads (s : str) : option value :=
  match s with
  | 65279%N :: _ => None
  | _ =>
      let s1 := skip_ws s in
      match scan_once (fuel_for s1) s1 with
      | Scanned v rest =>
          match skip_ws rest with
          | [] => Some v
          | _ :: _ => None
          end
      | Invalid | OutOfFuel => None
      end
  end.

End json.

(** [re.search(r'\[[\s\S]*\]', s)], then [match.group()]: the text from the
    first opening bracket to the last closing bracket after it. *)
Module re.

(** The longest prefix of [s] that ends with a closing bracket. *)
Fixpoint upto_last_close (s : str) : option str :=
  match s with
  | [] => None
  | x :: s' =>
      match upto_last_close s' with
      | Some t => Some (x :: t)
      | None => if json.is_ x "]" then Some [x] else None
      end
  end.

Fixpoint search_bracketed (s : str) : option str :=
  match s with
  | [] => None
  | x :: s' =>
      if json.is_ x "[" then
        match upto_last_close s' with
        | Some t => Some (x :: t)
        | None => None
        end
      else search_bracketed s'
  end.

End re.

(** ** [modules/ai_engine.py] *)

Module ai_engine.
Section WithExternals.
Context {world : Externals}.

Definition get_llm (model_name : option str) : result LLM :=
  let model_name := match model_name with
                    | None => lit "Gemini 2.5 Pro"
                    | Some n => n
                    end in
  match config.lookup model_name config.AVAILABLE_MODELS with
  | None => Raise (Raised (lit "Unknown model: " ++ model_name))
  | Some model_config =>
      let model_id := config.model_name_of model_config in
      match config.provider_of model_config with
      | config.gemini =>
          if negb (truthy_str GEMINI_API_KEY)
          then Raise (Raised (lit "GEMINI_API_KEY not found. Please set it in your .env file."))
          else Ok (ChatGoogleGenerativeAI model_id GEMINI_API_KEY)
      | config.deepseek =>
          if negb (truthy_str DEEPSEEK_API_KEY)
          then Raise (Raised (lit "DEEPSEEK_API_KEY not found. Please set it in your .env file."))
          else Ok (ChatOpenAI model_id DEEPSEEK_API_KEY (lit "https://api.deepseek.com"))
      end
  end.

(** *** Prompt templates, each applied to its input variables *)

Definition SUMMARY_PROMPT (text : str) : str :=
  lit "You are an expert educational content summarizer. Analyze the following lecture material and create a comprehensive summary.

LECTURE MATERIAL:
" ++ text ++ lit "

Create a well-structured summary that includes:
1. **Main Topic**: A brief one-line description of what this lecture is about
2. **Key Concepts**: List the 3-5 most important concepts covered
3. **Detailed Summary**: A thorough but concise summary of the main points
4. **Key Takeaways**: 3-5 bullet points that students should remember

Format your response in Markdown for clear readability.".

Definition CHUNK_SUMMARY_PROMPT (text : str) : str :=
  lit "Summarize the following section of lecture material concisely, capturing all key points:

" ++ text ++ lit "

Provide a concise summary that preserves the main ideas and important details.".

Definition COMBINE_SUMMARY_PROMPT (summaries : str) : str :=
  lit "You are an expert educational content summarizer. Combine the following partial summaries into one comprehensive, well-structured summary.

PARTIAL SUMMARIES:
" ++ summaries ++ lit "

Create a unified summary that includes:
1. **Main Topic**: A brief one-line description of what this lecture is about
2. **Key Concepts**: List the 3-5 most important concepts covered
3. **Detailed Summary**: A thorough but concise summary of the main points
4. **Key Takeaways**: 3-5 bullet points that students should remember

Format your response in Markdown for clear readability.".

Definition QUIZ_PROMPT (summary : str) (num_questions : Z) : str :=
  lit "Based on the following lecture summary, create " ++ str_of_int num_questions
  ++ lit " multiple-choice quiz questions to test student understanding.

LECTURE SUMMARY:
" ++ summary ++ lit ("

Requirements:
- Each question should test a key concept from the material
- Provide 4 answer options (A, B, C, D) for each question
- Ensure only one option is correct
- Make incorrect options plausible but clearly wrong
- Vary the difficulty from basic recall to application

IMPORTANT: Respond ONLY with a valid JSON array. No additional text before or after.

Format:
[
    {
        " ++ dq ++ "question" ++ dq ++ ": " ++ dq ++ "Your question here?" ++ dq ++ ",
        " ++ dq ++ "options" ++ dq ++ ": {
            " ++ dq ++ "A" ++ dq ++ ": " ++ dq ++ "First option" ++ dq ++ ",
            " ++ dq ++ "B" ++ dq ++ ": " ++ dq ++ "Second option" ++ dq ++ ", 
            " ++ dq ++ "C" ++ dq ++ ": " ++ dq ++ "Third option" ++ dq ++ ",
            " ++ dq ++ "D" ++ dq ++ ": " ++ dq ++ "Fourth option" ++ dq ++ "
        },
        " ++ dq ++ "answer" ++ dq ++ ": " ++ dq ++ "A" ++ dq ++ ",
        " ++ dq ++ "explanation" ++ dq ++ ": " ++ dq ++ "Brief explanation of why this is correct" ++ dq ++ "
    }
]")%string.

(** *** Summarisation *)

(** The dictionary both summarisers return; a key that is absent is [None]. *)
Record summary_result := {
  success : bool;
  summary : str;
  error : option str;
  chunks_processed : option Z
}.

(** The [for chunk in chunks] loop, with [chunk_summaries] as it grows. *)
Fixpoint summarize_chunks (llm : LLM) (chunks : list str) (chunk_summaries : list str)
  : M (list str) :=
  match chunks with
  | [] => ret chunk_summaries
  | chunk :: rest =>
      summary <- invoke llm (CHUNK_SUMMARY_PROMPT chunk) ;;
      summarize_chunks llm rest (chunk_summaries ++ [summary])
  end.

Definition separator : str := [10; 10; 45; 45; 45; 10; 10]%N.

Definition summarize_long_text (text : str) (model_name : option str) : M summary_result :=
  enter F_summarize_long_text ;;;
  try_except
    (llm <- lift (get_llm model_name) ;;
     enter F_chunk_text ;;;
     chunks <- lift (text_processor.chunk_text text (Some 8000) (Some 500)) ;;
     chunk_summaries <- summarize_chunks llm chunks [] ;;
     let combined_text := join separator chunk_summaries in
     final_summary <- invoke llm (COMBINE_SUMMARY_PROMPT combined_text) ;;
     ret {| success := true; summary := final_summary; error := None;
            chunks_processed := Some (len chunks) |})
    (fun e =>
     ret {| success := false; summary := [];
            error := Some (lit "Error summarizing long text: " ++ str_of_exn e);
            chunks_processed := None |}).

Definition summarize_text (text : str) (model_name : option str) : M summary_result :=
  enter F_summarize_text ;;;
  try_except
    (llm <- lift (get_llm model_name) ;;
     if len text >? 30000 then summarize_long_text text model_name
     else
       result <- invoke llm (SUMMARY_PROMPT text) ;;
       ret {| success := true; summary := result; error := None;
              chunks_processed := None |})
    (fun e =>
     ret {| success := false; summary := [];
            error := Some (lit "Error generating summary: " ++ str_of_exn e);
            chunks_processed := None |}).

(** *** Quiz generation *)

(** The dictionary [generate_quiz] returns (its keys ['success'] and
    ['error'] carry a prefix here, the bare names being those of
    [summary_result]). *)
Record quiz_result := {
  quiz_success : bool;
  quiz : json.value;
  quiz_error : option str
}.

(** The value returned is a Python value; [json.VNone] is [None]. *)
Definition parse_quiz_response (response : str) : json.value :=
  match json.loads response with
  | Some v => v
  | None =>
      match re.search_bracketed response with
      | Some group =>
          match json.loads group with
          | Some v => v
          | None => json.VNone
          end
      | None => json.VNone
      end
  end.

Definition generate_quiz (summary : str) (num_questions : option Z)
    (model_name : option str) : M quiz_result :=
  enter F_generate_quiz ;;;
  let num_questions :=
    text_processor.opt_default num_questions config.DEFAULT_NUM_QUESTIONS in
  try_except
    (llm <- lift (get_llm model_name) ;;
     result <- invoke llm (QUIZ_PROMPT summary num_questions) ;;
     let quiz := parse_quiz_response result in
     if json.truthy quiz then
       ret {| quiz_success := true; quiz := quiz; quiz_error := None |}
     else
       ret {| quiz_success := false; quiz := json.VList [];
              quiz_error := Some (lit "Failed to parse quiz response. Please try again.") |})
    (fun e =>
     ret {| quiz_success := false; quiz := json.VList [];
            quiz_error := Some (lit "Error generating quiz: " ++ str_of_exn e) |}).

End WithExternals.
End ai_engine.

(** ** [process_content] of [app.py] *)

Module app.
Section WithExternals.
Context {world : Externals}.

(** [st.session_state]: the four keys [process_content] writes. *)
Record session_state := {
  extracted_text : option str;
  summary : option str;
  quiz : option json.value;
  source_info : option (list (str * json.value))
}.

(** The pair [(input_type, input_value)] as [render_input_tabs] builds it:
    [('youtube', url)] or [('document', file)]. *)
Inductive content_input : Type :=
| youtube (url : str)
| document (file : uploaded_file).

(** [f"{n:,}"] for [n >= 0] *)
Fixpoint group_thousands (rev_digits : list char) (k : nat) : list char :=
  match rev_digits with
  | [] => []
  | d :: r =>
      match k with
      | 3%nat => 44%N :: d :: group_thousands r 1
      | _ => d :: group_thousands r (S k)
      end
  end.

Definition format_thousands (n : Z) : str :=
  rev (group_thousands (rev (str_of_int n)) 0).

Definition get_default {A} (o : option A) (d : A) : A :=
  match o with Some v => v | None => d end.

Definition cross_mark : str := [10060%N; 32%N].
Definition check_mark : str := [9989%N; 32%N].
Definition warning_sign : str := [9888%N; 65039%N; 32%N].

Definition text_length (text : str) : json.value :=
  json.VStr (format_thousands (len text) ++ lit " characters").

(** Assignments to the keys of [st.session_state]. *)
Definition cleared : session_state :=
  {| extracted_text := None; summary := None; quiz := None; source_info := None |}.

Definition set_extracted (st : session_state) (text : str)
    (info : list (str * json.value)) : session_state :=
  {| extracted_text := Some text; summary := summary st; quiz := quiz st;
     source_info := Some info |}.

Definition set_summary (st : session_state) (s : str) : session_state :=
  {| extracted_text := extracted_text st; summary := Some s; quiz := quiz st;
     source_info := source_info st |}.

Definition set_quiz (st : session_state) (q : json.value) : session_state :=
  {| extracted_text := extracted_text st; summary := summary st; quiz := Some q;
     source_info := source_info st |}.

(** What Step 1 reads from its extractor: the dictionary returned, the
    message shown when it carries no error, and the source information
    built from it. *)
Definition extract (input : content_input)
  : extraction * str * list (str * json.value) :=
  match input with
  | youtube url =>
      let result := get_transcript_from_url url in
      (result, lit "Failed to extract transcript",
       [ (lit "Source", json.VStr (lit "YouTube Video"));
         (lit "Language", json.VStr (get_default (ex_language result) (lit "Unknown")));
         (lit "Text Length", text_length (ex_text result)) ])
  | document file =>
      let result := parse_document file (file_name file) in
      let pages_or_slides :=
        match ex_pages result with
        | Some p => if p =? 0 then get_default (ex_slides result) 0 else p
        | None => get_default (ex_slides result) 0
        end in
      (result, lit "Failed to parse document",
       [ (lit "Source", json.VStr (file_name file));
         (lit "Pages/Slides", json.VInt pages_or_slides);
         (lit "Text Length", text_length (ex_text result)) ])
  end.

(** The spinners are not modelled: they only decorate the page while a
    step runs.  The value returned is [st.session_state] as the function
    leaves it. *)
Definition process_content (input : content_input) (num_questions : Z)
    (model_name : option str) (st : session_state) : M session_state :=
  (* Clear previous results *)
  let st := cleared in
  (* Step 1: Extract Text *)
  let '(result, fallback, info) := extract input in
  if negb (ex_success result) then
    emit (StError (cross_mark ++ get_default (ex_error result) fallback)) ;;;
    ret st
  else
    let st := set_extracted st (ex_text result) info in
    emit (StSuccess (check_mark ++ lit "Content extracted successfully!")) ;;;
    (* Step 2: Generate Summary *)
    summary_result <- ai_engine.summarize_text (ex_text result) model_name ;;
    if ai_engine.success summary_result then
      let st := set_summary st (ai_engine.summary summary_result) in
      emit (StSuccess (check_mark ++ lit "Summary generated!")) ;;;
      (* Step 3: Generate Quiz *)
      quiz_result <- ai_engine.generate_quiz (ai_engine.summary summary_result)
                       (Some num_questions) model_name ;;
      st <- (if ai_engine.quiz_success quiz_result then
               ret (set_quiz st (ai_engine.quiz quiz_result))
             else
               emit (StWarning (warning_sign ++
                       get_default (ai_engine.quiz_error quiz_result)
                                   (lit "Could not generate quiz"))) ;;;
               ret st) ;;
      emit (StSuccess (check_mark ++ lit "Quiz ready! Scroll down to view results.")) ;;;
      emit StRerun ;;;
      ret st
    else
      emit (StError (cross_mark ++
              get_default (ai_engine.error summary_result)
                          (lit "Failed to generate summary"))) ;;;
      ret st.

(** The model names [main] offers in its select box: those of
    [AVAILABLE_MODELS], in order, whose provider has its key set. *)
Definition available_model_names : list str :=
  flat_map
    (fun entry : str * config.model_config =>
       let (name, config) := entry in
       match config.provider_of config with
       | config.gemini => if truthy_str GEMINI_API_KEY then [name] else []
       | config.deepseek => if truthy_str DEEPSEEK_API_KEY then [name] else []
       end)
    config.AVAILABLE_MODELS.

End WithExternals.
End app.

(** ** The extractors

    What they do not own: the transcript service, the two document readers
    and [str.lower]. *)

Class Libraries : Type := {
  (** [YouTubeTranscriptApi().fetch(video_id, languages=...)] (with
      [languages] absent for [None]), as the texts of its segments, or the
      exception raised on the way. *)
  fetch_transcript : str -> option (list str) -> result (list str);
  (** [page.get_text()] for the pages of the document [fitz] opens, or the
      exception raised on the way. *)
  pdf_pages : uploaded_file -> result (list str);
  (** For each slide of the [Presentation], the [text] of each of its shapes,
      [None] for a shape without that attribute; or the exception raised on
      the way. *)
  pptx_slides : uploaded_file -> result (list (list (option str)));
  (** [s.lower()] *)
  str_lower : str -> str
}.

(** *** [modules/youtube_extractor.py] *)

Module youtube_extractor.
Section WithLibraries.
Context {libs : Libraries}.

(** A character of the class [[a-zA-Z0-9_-]]. *)
Definition is_id_char (c : char) : bool :=
  ((97 <=? c) && (c <=? 122) || (65 <=? c) && (c <=? 90) || (48 <=? c) && (c <=? 57)
   || (c =? 95) || (c =? 45))%N.

(** The group of eleven such characters at the head of [s]. *)
Definition take_id (s : str) : option str :=
  let id := firstn 11 s in
  if (List.length id =? 11)%nat && forallb is_id_char id then Some id else None.

(** The three alternatives of the first pattern. *)
Definition markers : list str :=
  [ lit "youtube.com/watch?v="; lit "youtu.be/"; lit "youtube.com/embed/" ].

(** The first pattern tried at the head of [s]: the alternatives in order,
    each followed by the group. *)
Fixpoint match_marked (ms : list str) (s : str) : option str :=
  match ms with
  | [] => None
  | m :: ms' =>
      match json.after_prefix m s with
      | Some rest =>
          match take_id rest with
          | Some id => Some id
          | None => match_marked ms' s
          end
      | None => match_marked ms' s
      end
  end.

(** [re.search] of the first pattern: the leftmost position where it
    matches. *)
Fixpoint search_marked (s : str) : option str :=
  match match_marked markers s with
  | Some id => Some id
  | None =>
      match s with
      | [] => None
      | _ :: s' => search_marked s'
      end
  end.

(** [re.search] of the second pattern: the whole string is the group, up to
    one line feed that may end it. *)
Definition search_bare (s : str) : option str :=
  match take_id s with
  | Some id =>
      match skipn 11 s with
      | [] => Some id
      | [10%N] => Some id
      | _ => None
      end
  | None => None
  end.

Definition extract_video_id (url : str) : option str :=
  match search_marked url with
  | Some id => Some id
  | None => search_bare url
  end.

Definition transcript (text : str) : extraction :=
  {| ex_success := true; ex_text := text; ex_error := None;
     ex_language := Some (lit "auto"); ex_pages := None; ex_slides := None |}.

Definition no_transcript (error : str) : extraction :=
  {| ex_success := false; ex_text := []; ex_error := Some error;
     ex_language := None; ex_pages := None; ex_slides := None |}.

Definition get_transcript (video_id : str) (languages : option (list str)) : extraction :=
  let languages :=
    match languages with
    | None => [lit "en"; lit "id"; lit "en-US"; lit "en-GB"]
    | Some l => l
    end in
  match fetch_transcript video_id (Some languages) with
  | Ok transcript_data => transcript (join (lit " ") transcript_data)
  | Raise e =>
      (* Try without language preference as fallback *)
      match fetch_transcript video_id None with
      | Ok transcript_data => transcript (join (lit " ") transcript_data)
      | Raise fallback_error =>
          let fallback_msg := str_lower (str_of_exn fallback_error) in
          if PyStr.contains (lit "disabled") fallback_msg then
            no_transcript (lit "Transcripts are disabled for this video.")
          else if PyStr.contains (lit "unavailable") fallback_msg
                  || PyStr.contains (lit "not found") fallback_msg then
            no_transcript (lit "Video is unavailable or no transcript found.")
          else
            no_transcript (lit "Error fetching transcript: " ++ str_of_exn fallback_error)
      end
  end.

Definition get_transcript_from_url (url : str) : extraction :=
  match extract_video_id url with
  | None => no_transcript (lit "Invalid YouTube URL. Please provide a valid YouTube video link.")
  | Some video_id =>
      if negb (truthy_str video_id)
      then no_transcript (lit "Invalid YouTube URL. Please provide a valid YouTube video link.")
      else get_transcript video_id None
  end.

End WithLibraries.
End youtube_extractor.

(** *** [modules/document_parser.py]

    The file is the uploaded file of the application, which has [read]. *)

Module document_parser.
Section WithLibraries.
Context {libs : Libraries}.

(** The loop over [enumerate(doc, 1)]: the pages that are not blank, each
    under the label of its number. *)
Fixpoint labelled_pages (page_num : Z) (pages : list str) : list str :=
  match pages with
  | [] => []
  | page_text :: rest =>
      if truthy_str (PyStr.strip page_text)
      then (lit "[Page " ++ str_of_int page_num ++ lit "]" ++ [10%N] ++ page_text)
             :: labelled_pages (page_num + 1) rest
      else labelled_pages (page_num + 1) rest
  end.

Definition parse_pdf (file : uploaded_file) : extraction :=
  match pdf_pages file with
  | Ok pages =>
      let text_content := labelled_pages 1 pages in
      let full_text := join [10%N; 10%N] text_content in
      {| ex_success := true; ex_text := full_text; ex_error := None;
         ex_language := None; ex_pages := Some (len text_content); ex_slides := None |}
  | Raise e =>
      {| ex_success := false; ex_text := [];
         ex_error := Some (lit "Error parsing PDF: " ++ str_of_exn e);
         ex_language := None; ex_pages := Some 0; ex_slides := None |}
  end.

(** The texts a slide contributes: those of its shapes that have one that
    is not blank. *)
Fixpoint slide_text (shapes : list (option str)) : list str :=
  match shapes with
  | [] => []
  | Some t :: rest =>
      if truthy_str (PyStr.strip t) then t :: slide_text rest else slide_text rest
  | None :: rest => slide_text rest
  end.

(** The loop over [enumerate(prs.slides, 1)]. *)
Fixpoint labelled_slides (num : Z) (slides : list (list (option str))) : list str :=
  match slides with
  | [] => []
  | shapes :: rest =>
      match slide_text shapes with
      | [] => labelled_slides (num + 1) rest
      | texts =>
          (lit "[Slide " ++ str_of_int num ++ lit "]" ++ [10%N] ++ join [10%N] texts)
            :: labelled_slides (num + 1) rest
      end
  end.

Definition parse_pptx (file : uploaded_file) : extraction :=
  match pptx_slides file with
  | Ok slides =>
      let text_content := labelled_slides 1 slides in
      let full_text := join [10%N; 10%N] text_content in
      {| ex_success := true; ex_text := full_text; ex_error := None;
         ex_language := None; ex_pages := None; ex_slides := Some (len text_content) |}
  | Raise e =>
      {| ex_success := false; ex_text := [];
         ex_error := Some (lit "Error parsing PowerPoint: " ++ str_of_exn e);
         ex_language := None; ex_pages := None; ex_slides := Some 0 |}
  end.

Definition parse_document (file : uploaded_file) (filename : str) : extraction :=
  let filename_lower := str_lower filename in
  if PyStr.endswith (lit ".pdf") filename_lower then parse_pdf file
  else if PyStr.endswith (lit ".pptx") filename_lower then parse_pptx file
  else
    {| ex_success := false; ex_text := [];
       ex_error := Some (lit "Unsupported file type. Please upload PDF or PPTX files.");
       ex_language := None; ex_pages := None; ex_slides := None |}.

End WithLibraries.
End document_parser.

(** The application as it is wired: the extractors of the repository over
    the libraries, the models, keys and splitter of [world]. *)
Definition wired (libs : Libraries) (world : Externals) : Externals :=
  {| GEMINI_API_KEY := GEMINI_API_KEY; DEEPSEEK_API_KEY := DEEPSEEK_API_KEY;
     model_reply := model_reply; split_text := split_text;
     get_transcript_from_url := youtube_extractor.get_transcript_from_url;
     parse_document := document_parser.parse_document |}.

(** ** Vocabulary of the statements *)

Module Outcome.
Section WithExternals.
Context {world : Externals}.
Import ai_engine.

(** The dictionary of the [except] branches: no success, no summary, the
    label of the function and the text of the exception. *)
Definition failed (label : str) (e : exn) : summary_result :=
  {| success := false; summary := []; error := Some (label ++ str_of_exn e);
     chunks_processed := None |}.

Definition short_label : str := lit "Error generating summary: ".
Definition long_label : str := lit "Error summarizing long text: ".

(** What the single-shot path returns for a reply of the model. *)
Definition single_shot (reply : result str) : summary_result :=
  match reply with
  | Ok result => {| success := true; summary := result; error := None;
                    chunks_processed := None |}
  | Raise e => failed short_label e
  end.

(** What the map-reduce path returns when it completes. *)
Definition reduced (final : str) (n : Z) : summary_result :=
  {| success := true; summary := final; error := None; chunks_processed := Some n |}.

(** The chunk calls of a run in which each chunk got its partial summary. *)
Definition answered (llm : LLM) (chunks partials : list str) : list event :=
  map (fun cs => Invoke llm (CHUNK_SUMMARY_PROMPT (fst cs)) (Ok (snd cs)))
      (combine chunks partials).

(** A trace is faithful when every reply it records is the one the model
    gave at that point of the history. *)
Fixpoint faithful (h evs : list event) : Prop :=
  match evs with
  | [] => True
  | ev :: evs' =>
      match ev with
      | Invoke llm prompt reply => model_reply h llm prompt = reply
      | _ => True
      end /\ faithful (h ++ [ev]) evs'
  end.

(** The two dictionaries [generate_quiz] returns without a quiz. *)
Definition unparsed : quiz_result :=
  {| quiz_success := false; quiz := json.VList [];
     quiz_error := Some (lit "Failed to parse quiz response. Please try again.") |}.

Definition quiz_failed (e : exn) : quiz_result :=
  {| quiz_success := false; quiz := json.VList [];
     quiz_error := Some (lit "Error generating quiz: " ++ str_of_exn e) |}.

Definition is_list (v : json.value) : bool :=
  match v with json.VList _ => true | _ => false end.

(** The dictionary [generate_quiz] returns with a quiz. *)
Definition accepted (v : json.value) : quiz_result :=
  {| quiz_success := true; quiz := v; quiz_error := None |}.

(** What [generate_quiz] returns for a reply of the model. *)
Definition quiz_outcome (reply : result str) : quiz_result :=
  match reply with
  | Ok response =>
      if json.truthy (parse_quiz_response response)
      then accepted (parse_quiz_response response)
      else unparsed
  | Raise e => quiz_failed e
  end.

(** The messages [process_content] shows. *)
Definition extracted_msg : event :=
  StSuccess (app.check_mark ++ lit "Content extracted successfully!").
Definition summary_msg : event :=
  StSuccess (app.check_mark ++ lit "Summary generated!").
Definition quiz_ready_msg : event :=
  StSuccess (app.check_mark ++ lit "Quiz ready! Scroll down to view results.").
Definition summary_error_msg (sr : summary_result) : event :=
  StError (app.cross_mark ++
           app.get_default (error sr) (lit "Failed to generate summary")).
Definition quiz_warning_msg (qr : quiz_result) : event :=
  StWarning (app.warning_sign ++
             app.get_default (quiz_error qr) (lit "Could not generate quiz")).

(** A computation is sound when every trace it leaves is faithful. *)
Definition sound {A} (m : M A) : Prop := forall h, faithful h (snd (m h)).

(** Computations that only add events of one kind. *)
Definition emits (P : event -> Prop) {A} (m : M A) : Prop :=
  forall h, Forall P (snd (m h)).

Definition not_quiz_entry (ev : event) : Prop := ev <> Enter F_generate_quiz.

(** A scan that ended, and left no more than it was given. *)
Definition shorter (s : str) (r : json.scan) : Prop :=
  r <> json.OutOfFuel /\
  forall v rest, r = json.Scanned v rest -> (List.length rest <= List.length s)%nat.

End WithExternals.
End Outcome.
Import Outcome.

(** ** Concrete surroundings for worked examples

    Stand-ins for the outside world: a model that always answers and one
    whose provider fails after some calls, both over a splitter that cuts
    overlapping windows. *)

Module Demo.

(** What the library splitter does with a text that holds none of the
    separators (a run of letters): it cuts by characters, so the chunks are
    the windows of [size] characters that start every [step] characters, up
    to the one that reaches the end of the text. *)
Fixpoint windows (fuel size step : nat) (text : str) : list str :=
  match fuel with
  | O => []
  | S fuel' =>
      match text with
      | [] => []
      | _ :: _ =>
          firstn size text ::
            (if (List.length text <=? size)%nat then []
             else windows fuel' size step (skipn step text))
      end
  end.

(** The step is the size less the overlap, one character when they are
    equal; an overlap larger than the size is refused, as the constructor
    of the library does. *)
Definition window_splitter (chunk_size chunk_overlap : Z) (separators : list str)
    (text : str) : result (list str) :=
  if chunk_size <? chunk_overlap then
    Raise (Raised (lit "Got a larger chunk overlap (" ++ str_of_int chunk_overlap
                   ++ lit ") than chunk size (" ++ str_of_int chunk_size
                   ++ lit "), should be smaller."))
  else
    Ok (windows (List.length text) (Z.to_nat chunk_size)
          (Nat.max 1 (Z.to_nat (chunk_size - chunk_overlap))) text).

Definition no_extraction : extraction :=
  {| ex_success := false; ex_text := []; ex_error := Some (lit "unavailable");
     ex_language := None; ex_pages := None; ex_slides := None |}.

Definition lecture : extraction :=
  {| ex_success := true; ex_text := lit "Today we sort lists by merging.";
     ex_error := None; ex_language := Some (lit "auto"); ex_pages := None;
     ex_slides := None |}.

(** Answers "S1", "S2", ... by the number of calls made so far. *)
Definition numbered_reply (h : list event) : str :=
  lit "S" ++ str_of_int (Z.of_nat (List.length (invocations h)) + 1).

Definition steady : Externals := {|
  GEMINI_API_KEY := lit "key";
  DEEPSEEK_API_KEY := [];
  model_reply := fun h _ _ => Ok (numbered_reply h);
  split_text := window_splitter;
  get_transcript_from_url := fun _ => lecture;
  parse_document := fun _ _ => no_extraction
|}.

(** The provider answers [n] calls and fails from then on. *)
Definition failing_after (n : nat) : Externals := {|
  GEMINI_API_KEY := lit "key";
  DEEPSEEK_API_KEY := [];
  model_reply := fun h _ _ =>
    if (n <=? List.length (invocations h))%nat
    then Raise (Raised (lit "429 quota exceeded"))
    else Ok (numbered_reply h);
  split_text := window_splitter;
  get_transcript_from_url := fun _ => lecture;
  parse_document := fun _ _ => no_extraction
|}.

(** A model that answers every prompt with the same text. *)
Definition parrot (answer : str) : Externals := {|
  GEMINI_API_KEY := lit "key";
  DEEPSEEK_API_KEY := [];
  model_reply := fun _ _ _ => Ok answer;
  split_text := window_splitter;
  get_transcript_from_url := fun _ => lecture;
  parse_document := fun _ _ => no_extraction
|}.

(** A text of [n] letters. *)
Definition letters (n : Z) : str := repeat 97%N (Z.to_nat n).

Definition gemini_pro : LLM :=
  ChatGoogleGenerativeAI (lit "gemini-2.5-pro") (lit "key").

End Demo.

(** ** Vocabulary for the properties beyond the specification *)

Module Shape.

(** Every whitespace character of [s] is a plain space and no two of them
    are adjacent; [after_space] tells that a space was just read. *)
Fixpoint single_spaced (after_space : bool) (s : str) : bool :=
  match s with
  | [] => true
  | x :: s' =>
      if PyStr.isspace x then N.eqb x 32%N && negb after_space && single_spaced true s'
      else single_spaced false s'
  end.

(** Words separated by single spaces, with nothing around them. *)
Definition tidy (s : str) : Prop :=
  single_spaced false s = true /\ PyStr.strip s = s.

Definition visible (c : char) : bool := negb (PyStr.isspace c).

(** Nothing follows a model call that raised. *)
Fixpoint halts (evs : list event) : Prop :=
  match evs with
  | [] => True
  | Invoke _ _ (Raise _) :: rest => rest = []
  | _ :: rest => halts rest
  end.

Definition halting {A} (m : M A) : Prop := forall h, halts (snd (m h)).

(** Halting, and returning only after calls that were all answered. *)
Definition strict {A} (m : M A) : Prop :=
  forall h, halts (snd (m h)) /\
            (forall a, fst (m h) = Ok a -> failures (snd (m h)) = []).

(** A page with something to read on it, and the entry it gets. *)
Definition nonblank (t : str) : bool := truthy_str (PyStr.strip t).

Definition page_entry (page_num : Z) (page_text : str) : str :=
  lit "[Page " ++ str_of_int page_num ++ lit "]" ++ [10%N] ++ page_text.

(** [enumerate(items, start)]: each item with its number. *)
Fixpoint enumerate {A} (start : Z) (items : list A) : list (Z * A) :=
  match items with
  | [] => []
  | x :: rest => (start, x) :: enumerate (start + 1) rest
  end.

(** The entries of the pages that have text, in the order of the pages,
    each under the number its page has in the document. *)
Definition page_entries (pages : list str) : list str :=
  map (fun numbered => page_entry (fst numbered) (snd numbered))
      (filter (fun numbered => nonblank (snd numbered)) (enumerate 1 pages)).

Definition invalid_url : extraction :=
  youtube_extractor.no_transcript
    (lit "Invalid YouTube URL. Please provide a valid YouTube video link.").

End Shape.
Import Shape.

(** ** More surroundings for worked examples *)

Module Samples.

(** No key is set. *)
Definition keyless : Externals := {|
  GEMINI_API_KEY := [];
  DEEPSEEK_API_KEY := [];
  model_reply := fun h _ _ => Ok (Demo.numbered_reply h);
  split_text := Demo.window_splitter;
  get_transcript_from_url := fun _ => Demo.lecture;
  parse_document := fun _ _ => Demo.no_extraction
|}.

(** The splitter refuses its arguments. *)
Definition unsplittable : Externals := {|
  GEMINI_API_KEY := lit "key";
  DEEPSEEK_API_KEY := [];
  model_reply := fun h _ _ => Ok (Demo.numbered_reply h);
  split_text := fun _ _ _ _ => Raise (Raised (lit "splitter failed"));
  get_transcript_from_url := fun _ => Demo.lecture;
  parse_document := fun _ _ => Demo.no_extraction
|}.

(** No source can be read. *)
Definition offline : Externals := {|
  GEMINI_API_KEY := lit "key";
  DEEPSEEK_API_KEY := [];
  model_reply := fun h _ _ => Ok (Demo.numbered_reply h);
  split_text := Demo.window_splitter;
  get_transcript_from_url := fun _ => Demo.no_extraction;
  parse_document := fun _ _ => Demo.no_extraction
|}.

(** [lower] on the letters A to Z, enough for the names used below. *)
Definition ascii_lower (s : str) : str :=
  map (fun c => if ((65 <=? c) && (c <=? 90))%N then (c + 32)%N else c) s.

(** A document reader that finds the given pages in every file. *)
Definition reading (pages : list str) : Libraries := {|
  fetch_transcript := fun _ _ => Raise (Raised (lit "no network"));
  pdf_pages := fun _ => Ok pages;
  pptx_slides := fun _ => Ok [];
  str_lower := ascii_lower
|}.

Definition scan : uploaded_file := {| file_name := lit "Scan.PDF"; file_bytes := [] |}.

End Samples.

(** * Properties *)

(** ** The chunker *)

Section Chunker.
Context {world : Externals}.
Import text_processor.

(** The guard of [chunk_text]: a text that fits is not split. *)
Lemma chunk_text_fits (text : str) (chunk_size chunk_overlap : option Z) :
  len text <= opt_default chunk_size config.CHUNK_SIZE ->
  chunk_text text chunk_size chunk_overlap = Ok [text].
Proof.
  intros Hle. unfold chunk_text.
  destruct (Z.leb_spec (len text) (opt_default chunk_size config.CHUNK_SIZE)) as [_ | Hgt].
  - reflexivity.
  - lia.
Qed.

(** C6. A text no longer than the chunk size comes back as one chunk, the
    text itself; the size is the one passed or, without one, the configured
    default. *)
Theorem chunk_text_short (text : str) (max_size : Z) (chunk_overlap : option Z) :
  len text <= max_size ->
  chunk_text text (Some max_size) chunk_overlap = Ok [text] /\
  (len text <= config.CHUNK_SIZE -> chunk_text text None chunk_overlap = Ok [text]).
Proof.
  intros Hle. split.
  - apply chunk_text_fits. exact Hle.
  - intros Hdefault. apply chunk_text_fits. exact Hdefault.
Qed.

(** On a longer text the chunks are the splitter's, as they come. *)
Lemma chunk_text_long (text : str) (chunk_size chunk_overlap : option Z) :
  opt_default chunk_size config.CHUNK_SIZE < len text ->
  chunk_text text chunk_size chunk_overlap =
    split_text (opt_default chunk_size config.CHUNK_SIZE)
               (opt_default chunk_overlap config.CHUNK_OVERLAP) separators text.
Proof.
  intros Hlt. unfold chunk_text.
  destruct (Z.leb_spec (len text) (opt_default chunk_size config.CHUNK_SIZE)) as [Hle | _].
  - lia.
  - reflexivity.
Qed.

(** C8, amended.  A text no longer than the chunk size comes back whole and
    untrimmed as the only chunk: no chunk is empty exactly when the text is
    not empty, and no chunk is blank (empty or whitespace only) exactly when
    the text is not blank.  For a longer text the result is what the
    splitter of the library gives for that size, overlap and separators, as
    it comes: [chunk_text] itself adds, drops and trims no fragment, and
    raises what the splitter raises. *)
Theorem chunk_text_nonempty (text : str) (chunk_size chunk_overlap : option Z) :
  (len text <= opt_default chunk_size config.CHUNK_SIZE ->
     chunk_text text chunk_size chunk_overlap = Ok [text] /\
     forall chunks,
       chunk_text text chunk_size chunk_overlap = Ok chunks ->
       (Forall (fun c => c <> []) chunks <-> text <> []) /\
       (Forall (fun c => nonblank c = true) chunks <-> nonblank text = true)) /\
  (opt_default chunk_size config.CHUNK_SIZE < len text ->
     chunk_text text chunk_size chunk_overlap =
       split_text (opt_default chunk_size config.CHUNK_SIZE)
                  (opt_default chunk_overlap config.CHUNK_OVERLAP) separators text).
Proof.
  split.
  - intros Hle. pose proof (chunk_text_fits _ _ chunk_overlap Hle) as Hwhole.
    split; [ exact Hwhole | ].
    intros chunks Hrun. rewrite Hwhole in Hrun. injection Hrun as <-.
    split; split.
    + intros Hall. inversion Hall as [ | ? ? Hhead _ ]. exact Hhead.
    + intros Hne. constructor; [ exact Hne | constructor ].
    + intros Hall. inversion Hall as [ | ? ? Hhead _ ]. exact Hhead.
    + intros Hne. constructor; [ exact Hne | constructor ].
  - apply chunk_text_long.
Qed.

End Chunker.

(** C6 at work: five characters under a size of ten. *)
Lemma chunk_text_short_witness :
  len (lit "hello") <= 10 /\
  text_processor.chunk_text (world := Demo.steady) (lit "hello") (Some 10) None
    = Ok [lit "hello"].
Proof.
  assert (Hle : len (lit "hello") <= 10) by (vm_compute; discriminate).
  split; [ exact Hle | ].
  exact (proj1 (chunk_text_short (world := Demo.steady) (lit "hello") 10 None Hle)).
Defined.

(** C8 as stated fails: the empty text comes back as one empty chunk, and a
    blank text as one blank chunk. *)
Lemma chunk_text_empty_chunk :
  text_processor.chunk_text (world := Demo.steady) [] None None = Ok [[]] /\
  text_processor.chunk_text (world := Demo.steady) (lit "  ") None None = Ok [lit "  "].
Proof. split; reflexivity. Qed.

(** The amended C8 at work, on both branches: a padded word under the
    default size comes back padded, and 8001 letters at size 8000 and
    overlap 500 come back as the two windows of the splitter. *)
Lemma chunk_text_nonempty_witness :
  text_processor.chunk_text (world := Demo.steady) (lit " hi ") None None
    = Ok [lit " hi "] /\
  Forall (fun c : str => nonblank c = true) [lit " hi "] /\
  text_processor.chunk_text (world := Demo.steady) (Demo.letters 8001) (Some 8000) (Some 500)
    = Ok [Demo.letters 8000; Demo.letters 501].
Proof.
  assert (Hshort : len (lit " hi ") <= text_processor.opt_default None config.CHUNK_SIZE)
    by (vm_compute; discriminate).
  assert (Hlong : text_processor.opt_default (Some 8000) config.CHUNK_SIZE
                  < len (Demo.letters 8001))
    by (vm_compute; reflexivity).
  destruct (proj1 (chunk_text_nonempty (world := Demo.steady) (lit " hi ") None None) Hshort)
    as (Hwhole & Hchunks).
  split; [ exact Hwhole | split ].
  - apply (Hchunks _ Hwhole). reflexivity.
  - rewrite (proj2 (chunk_text_nonempty (world := Demo.steady) (Demo.letters 8001)
                      (Some 8000) (Some 500)) Hlong).
    vm_compute. reflexivity.
Defined.

(** ** Runs of the effectful code *)

Section Runs.
Context {world : Externals}.

Lemma bind_ok {A B} (m : M A) (k : A -> M B) h a e1 :
  m h = (Ok a, e1) ->
  bind m k h = (fst (k a (h ++ e1)), e1 ++ snd (k a (h ++ e1))).
Proof. intros Hm. unfold bind. rewrite Hm. destruct (k a (h ++ e1)); reflexivity. Qed.

Lemma bind_raise {A B} (m : M A) (k : A -> M B) h e e1 :
  m h = (Raise e, e1) -> bind m k h = (Raise e, e1).
Proof. intros Hm. unfold bind. rewrite Hm. reflexivity. Qed.

Lemma failures_app a b : failures (a ++ b) = failures a ++ failures b.
Proof.
  induction a as [ | ev a IH]; [ reflexivity | ].
  destruct ev as [ f | l p [ s | e ] | | | | ]; simpl; rewrite IH; reflexivity.
Qed.

Lemma invocations_app a b : invocations (a ++ b) = invocations a ++ invocations b.
Proof.
  induction a as [ | ev a IH]; [ reflexivity | ].
  destruct ev; simpl; rewrite IH; reflexivity.
Qed.

Lemma faithful_app h a : forall b,
  faithful h (a ++ b) <-> faithful h a /\ faithful (h ++ a) b.
Proof.
  revert h. induction a as [ | ev a IH]; intros h b.
  - rewrite app_nil_r. simpl. tauto.
  - simpl. rewrite IH, <- app_assoc. simpl. tauto.
Qed.

Lemma sound_ret {A} (a : A) : sound (ret a).
Proof. intros h. exact I. Qed.

Lemma sound_lift {A} (r : result A) : sound (lift r).
Proof. intros h. exact I. Qed.

Lemma sound_enter f : sound (enter f).
Proof. intros h. simpl. auto. Qed.

Lemma sound_invoke llm prompt : sound (invoke llm prompt).
Proof. intros h. simpl. auto. Qed.

Lemma sound_bind {A B} (m : M A) (k : A -> M B) :
  sound m -> (forall a, sound (k a)) -> sound (bind m k).
Proof.
  intros Hm Hk h. unfold bind. specialize (Hm h).
  destruct (m h) as [ [ a | e ] e1 ]; [ | exact Hm ].
  specialize (Hk a (h ++ e1)). destruct (k a (h ++ e1)) as [ r e2 ].
  apply faithful_app. split; assumption.
Qed.

Lemma sound_try_except {A} (body : M A) handler :
  sound body -> (forall e, sound (handler e)) -> sound (try_except body handler).
Proof.
  intros Hm Hk h. unfold try_except. specialize (Hm h).
  destruct (body h) as [ [ a | e ] e1 ]; [ exact Hm | ].
  specialize (Hk e (h ++ e1)). destruct (handler e (h ++ e1)) as [ r e2 ].
  apply faithful_app. split; assumption.
Qed.

End Runs.

Create HintDb sound.
#[local] Hint Resolve sound_ret sound_lift sound_enter sound_invoke : sound.

(** Soundness of a composite follows its shape. *)
Ltac sound_steps :=
  repeat first
    [ progress cbv zeta
    | apply sound_bind; [ | intro ]
    | apply sound_try_except; [ | intro ]
    | solve [ auto with sound ] ].

(** ** The summarisation orchestrator *)

Section Summarisation.
Context {world : Externals}.
Import ai_engine.

Lemma failures_answered llm chunks partials :
  failures (answered llm chunks partials) = [].
Proof.
  unfold answered.
  induction (combine chunks partials) as [ | cs l IH]; [ reflexivity | exact IH ].
Qed.

Lemma invocations_answered llm chunks : forall partials,
  List.length partials = List.length chunks ->
  invocations (answered llm chunks partials) = map CHUNK_SUMMARY_PROMPT chunks.
Proof.
  unfold answered.
  induction chunks as [ | c chunks IH]; intros [ | s partials ] Hlen;
    try discriminate Hlen; [ reflexivity | ].
  simpl. f_equal. apply IH. simpl in Hlen. congruence.
Qed.

Lemma sound_summarize_chunks llm chunks : forall acc, sound (summarize_chunks llm chunks acc).
Proof.
  induction chunks as [ | c chunks IH]; intros acc; simpl; sound_steps.
Qed.

Lemma sound_summarize_long_text text model_name :
  sound (summarize_long_text text model_name).
Proof.
  unfold summarize_long_text. sound_steps.
  all: try apply sound_summarize_chunks; sound_steps.
Qed.

Lemma sound_summarize_text text model_name : sound (summarize_text text model_name).
Proof.
  unfold summarize_text. sound_steps.
  destruct (len text >? 30000); [ apply sound_summarize_long_text | sound_steps ].
Qed.

(** The loop either gathers one partial summary per chunk, in order, or
    stops at the first call that raises. *)
Lemma summarize_chunks_spec llm chunks : forall acc h,
  (exists partials, List.length partials = List.length chunks /\
     summarize_chunks llm chunks acc h = (Ok (acc ++ partials), answered llm chunks partials))
  \/ (exists e evs, summarize_chunks llm chunks acc h = (Raise e, evs) /\ failures evs = [e]).
Proof.
  induction chunks as [ | chunk rest IH]; intros acc h.
  - left. exists []. split; [ reflexivity | ]. simpl. unfold ret. rewrite app_nil_r. reflexivity.
  - simpl. destruct (model_reply h llm (CHUNK_SUMMARY_PROMPT chunk)) as [ s | e ] eqn:Hreply.
    + rewrite (bind_ok _ _ h s [Invoke llm (CHUNK_SUMMARY_PROMPT chunk) (Ok s)]);
        [ | unfold invoke; rewrite Hreply; reflexivity ].
      destruct (IH (acc ++ [s]) (h ++ [Invoke llm (CHUNK_SUMMARY_PROMPT chunk) (Ok s)]))
        as [ (partials & Hlen & Hrun) | (e & evs & Hrun & Hfail) ]; rewrite Hrun; simpl.
      * left. exists (s :: partials). split; [ simpl; congruence | ].
        rewrite <- app_assoc. reflexivity.
      * right. eexists _, _. split; [ reflexivity | exact Hfail ].
    + right. exists e, [Invoke llm (CHUNK_SUMMARY_PROMPT chunk) (Raise e)].
      split; [ | reflexivity ].
      apply bind_raise. unfold invoke. rewrite Hreply. reflexivity.
Qed.

(** The four ways [summarize_long_text] can go: no client, no chunks, a
    model call that raises, or a complete run. *)
Lemma summarize_long_text_cases text model_name h :
  (exists e, get_llm model_name = Raise e /\
     summarize_long_text text model_name h =
       (Ok (failed long_label e), [Enter F_summarize_long_text]))
  \/ (exists llm e, get_llm model_name = Ok llm /\
        text_processor.chunk_text text (Some 8000) (Some 500) = Raise e /\
        summarize_long_text text model_name h =
          (Ok (failed long_label e), [Enter F_summarize_long_text; Enter F_chunk_text]))
  \/ (exists llm chunks e evs, get_llm model_name = Ok llm /\
        text_processor.chunk_text text (Some 8000) (Some 500) = Ok chunks /\
        failures evs = [e] /\
        summarize_long_text text model_name h =
          (Ok (failed long_label e),
           Enter F_summarize_long_text :: Enter F_chunk_text :: evs))
  \/ (exists llm chunks partials final, get_llm model_name = Ok llm /\
        text_processor.chunk_text text (Some 8000) (Some 500) = Ok chunks /\
        List.length partials = List.length chunks /\
        summarize_long_text text model_name h =
          (Ok (reduced final (len chunks)),
           Enter F_summarize_long_text :: Enter F_chunk_text ::
             answered llm chunks partials ++
             [Invoke llm (COMBINE_SUMMARY_PROMPT (join separator partials)) (Ok final)])).
Proof.
  unfold summarize_long_text, try_except, bind, enter, emit, lift, ret.
  destruct (get_llm model_name) as [ llm | e ] eqn:Hllm.
  2:{ left. exists e. split; reflexivity. }
  right. cbn [app].
  destruct (text_processor.chunk_text text (Some 8000) (Some 500)) as [ chunks | e ] eqn:Hchunks.
  2:{ left. exists llm, e. repeat split; reflexivity. }
  right. rewrite !app_nil_r.
  destruct (summarize_chunks_spec llm chunks []
              ((h ++ [Enter F_summarize_long_text]) ++ [Enter F_chunk_text]))
    as [ (partials & Hlen & Hrun) | (e & evs & Hrun & Hfail) ]; rewrite Hrun; clear Hrun.
  2:{ left. exists llm, chunks, e, evs. rewrite !app_nil_r.
      repeat split; assumption || reflexivity. }
  cbn [app]. unfold invoke.
  match goal with |- context [model_reply ?hist llm ?p] =>
    destruct (model_reply hist llm p) as [ final | e ] end.
  - right. exists llm, chunks, partials, final. repeat split; assumption || reflexivity.
  - left. eexists llm, chunks, e, _. rewrite !app_nil_r.
    repeat split; try reflexivity.
    rewrite failures_app, failures_answered. reflexivity.
Qed.

(** [summarize_long_text] always returns a dictionary: no exception leaves it. *)
Lemma summarize_long_text_returns text model_name h :
  exists r evs,
    summarize_long_text text model_name h = (Ok r, Enter F_summarize_long_text :: evs).
Proof.
  destruct (summarize_long_text_cases text model_name h)
    as [ (e & _ & Hrun) | [ (llm & e & _ & _ & Hrun)
       | [ (llm & chunks & e & evs & _ & _ & _ & Hrun)
       | (llm & chunks & partials & final & _ & _ & _ & Hrun) ] ] ];
    rewrite Hrun; eexists _, _; reflexivity.
Qed.

Lemma summarize_text_no_llm text model_name h e :
  get_llm model_name = Raise e ->
  summarize_text text model_name h = (Ok (failed short_label e), [Enter F_summarize_text]).
Proof.
  intros Hllm. unfold summarize_text, try_except, bind, enter, emit, lift, ret.
  rewrite Hllm. reflexivity.
Qed.

Lemma summarize_text_long text model_name h llm :
  get_llm model_name = Ok llm ->
  30000 < len text ->
  summarize_text text model_name h =
    (fst (summarize_long_text text model_name (h ++ [Enter F_summarize_text])),
     Enter F_summarize_text ::
       snd (summarize_long_text text model_name (h ++ [Enter F_summarize_text]))).
Proof.
  intros Hllm Hlong. unfold summarize_text, try_except, bind, enter, emit, lift, ret.
  rewrite Hllm. cbn [app]. rewrite !app_nil_r.
  destruct (Z.gtb_spec (len text) 30000) as [ _ | Hle ]; [ | lia ].
  destruct (summarize_long_text_returns text model_name (h ++ [Enter F_summarize_text]))
    as (r & evs & Hrun).
  rewrite Hrun. reflexivity.
Qed.

Lemma summarize_text_single text model_name h llm :
  get_llm model_name = Ok llm ->
  len text <= 30000 ->
  summarize_text text model_name h =
    (Ok (single_shot (model_reply (h ++ [Enter F_summarize_text]) llm (SUMMARY_PROMPT text))),
     [Enter F_summarize_text;
      Invoke llm (SUMMARY_PROMPT text)
        (model_reply (h ++ [Enter F_summarize_text]) llm (SUMMARY_PROMPT text))]).
Proof.
  intros Hllm Hshort. unfold summarize_text, try_except, bind, enter, emit, lift, ret.
  rewrite Hllm. cbn [app]. rewrite !app_nil_r.
  destruct (Z.gtb_spec (len text) 30000) as [ Hgt | _ ]; [ lia | ].
  unfold invoke.
  destruct (model_reply (h ++ [Enter F_summarize_text]) llm (SUMMARY_PROMPT text));
    reflexivity.
Qed.

(** [summarize_text] always returns a dictionary as well. *)
Lemma summarize_text_returns text model_name h :
  exists r evs, summarize_text text model_name h = (Ok r, Enter F_summarize_text :: evs).
Proof.
  destruct (get_llm model_name) as [ llm | e ] eqn:Hllm.
  - destruct (Z.le_gt_cases (len text) 30000) as [ Hle | Hgt ].
    + rewrite (summarize_text_single _ _ _ _ Hllm Hle). eexists _, _. reflexivity.
    + rewrite (summarize_text_long _ _ _ _ Hllm Hgt).
      destruct (summarize_long_text_returns text model_name (h ++ [Enter F_summarize_text]))
        as (r & evs & Hrun).
      rewrite Hrun. eexists _, _. reflexivity.
  - rewrite (summarize_text_no_llm _ _ _ _ Hllm). eexists _, _. reflexivity.
Qed.

Lemma join_holds (sep : str) (parts : list str) (p : str) :
  In p parts -> exists before after, join sep parts = before ++ p ++ after.
Proof.
  induction parts as [ | q [ | r parts ] IH ]; intros Hin.
  - destruct Hin.
  - destruct Hin as [ -> | [] ]. exists [], []. cbn [join app]. rewrite app_nil_r. reflexivity.
  - destruct Hin as [ -> | Hin ].
    + exists [], (sep ++ join sep (r :: parts)). reflexivity.
    + destruct (IH Hin) as (before & after & Heq).
      exists (q ++ sep ++ before), after. change (join sep (q :: r :: parts))
        with (q ++ sep ++ join sep (r :: parts)).
      rewrite Heq, <- !app_assoc. reflexivity.
Qed.

(** C1. With a client for the selected model, [summarize_text] enters
    [summarize_long_text] exactly when the text has more than 30000
    characters, and then does what that function does.  Otherwise it makes
    one model call, with the summary prompt built around the whole text, and
    returns what came back; the chunker is not entered.  The summary prompt
    is the same instructions for every text, with the text whole and
    unchanged between them. *)
Theorem summarize_text_decides text model_name llm h :
  get_llm model_name = Ok llm ->
  (In (Enter F_summarize_long_text) (snd (summarize_text text model_name h))
     <-> 30000 < len text) /\
  (30000 < len text ->
     summarize_text text model_name h =
       (fst (summarize_long_text text model_name (h ++ [Enter F_summarize_text])),
        Enter F_summarize_text ::
          snd (summarize_long_text text model_name (h ++ [Enter F_summarize_text])))) /\
  (len text <= 30000 ->
     let reply := model_reply (h ++ [Enter F_summarize_text]) llm (SUMMARY_PROMPT text) in
     summarize_text text model_name h =
       (Ok (single_shot reply),
        [Enter F_summarize_text; Invoke llm (SUMMARY_PROMPT text) reply]) /\
     invocations (snd (summarize_text text model_name h)) = [SUMMARY_PROMPT text] /\
     ~ In (Enter F_chunk_text) (snd (summarize_text text model_name h))) /\
  (exists head tail,
     head <> [] /\ tail <> [] /\
     forall t, SUMMARY_PROMPT t = head ++ t ++ tail).
Proof.
  intros Hllm. split; [ | split; [ | split ] ]; cycle 3.
  { unfold SUMMARY_PROMPT. eexists. eexists.
    split; [ | split ]; cycle 2.
    - intros t. reflexivity.
    - vm_compute. discriminate.
    - vm_compute. discriminate. }
  - split.
    + intros Hin. destruct (Z.le_gt_cases (len text) 30000) as [ Hle | Hgt ]; [ | lia ].
      rewrite (summarize_text_single _ _ _ _ Hllm Hle) in Hin.
      cbn [snd] in Hin. destruct Hin as [ Hin | [ Hin | [] ] ]; discriminate Hin.
    + intros Hgt. rewrite (summarize_text_long _ _ _ _ Hllm Hgt). cbn [snd].
      destruct (summarize_long_text_returns text model_name (h ++ [Enter F_summarize_text]))
        as (r & evs & Hrun).
      rewrite Hrun. right. left. reflexivity.
  - exact (summarize_text_long _ _ _ _ Hllm).
  - intros Hle reply. rewrite (summarize_text_single _ _ _ _ Hllm Hle).
    split; [ reflexivity | split ]; [ reflexivity | ].
    cbn [snd]. intros [ Hin | [ Hin | [] ] ]; discriminate Hin.
Qed.

(** C2. With a client, with the chunks [chunk_text] cuts at size 8000 and
    overlap 500, and with no model call raising, [summarize_long_text] calls
    the model on the chunks in order, one call each, then once on the
    partial summaries joined by the separator, and returns the answer to
    that last call: one call more than there are chunks, each recorded with
    the reply the model gave at that moment.  Every partial summary stands
    as it is in the joined text; what shows of the separator is a rule of
    three hyphens, between blank lines; and the prompt of a chunk and the
    prompt of the combination are fixed instructions with the chunk, or the
    joined summaries, whole and unchanged between them. *)
Theorem summarize_long_text_map_reduce text model_name llm chunks h :
  get_llm model_name = Ok llm ->
  text_processor.chunk_text text (Some 8000) (Some 500) = Ok chunks ->
  failures (snd (summarize_long_text text model_name h)) = [] ->
  (exists partials final,
     List.length partials = List.length chunks /\
     summarize_long_text text model_name h =
       (Ok (reduced final (len chunks)),
        Enter F_summarize_long_text :: Enter F_chunk_text ::
          answered llm chunks partials ++
          [Invoke llm (COMBINE_SUMMARY_PROMPT (join separator partials)) (Ok final)]) /\
     invocations (snd (summarize_long_text text model_name h)) =
       map CHUNK_SUMMARY_PROMPT chunks ++
       [COMBINE_SUMMARY_PROMPT (join separator partials)] /\
     List.length (invocations (snd (summarize_long_text text model_name h))) =
       S (List.length chunks) /\
     faithful h (snd (summarize_long_text text model_name h)) /\
     (forall p, In p partials ->
        exists before after, join separator partials = before ++ p ++ after)) /\
  separator = [10%N; 10%N] ++ lit "---" ++ [10%N; 10%N] /\
  filter visible separator = lit "---" /\
  (exists head tail,
     head <> [] /\ tail <> [] /\
     forall chunk, CHUNK_SUMMARY_PROMPT chunk = head ++ chunk ++ tail) /\
  (exists head tail,
     head <> [] /\ tail <> [] /\
     forall summaries, COMBINE_SUMMARY_PROMPT summaries = head ++ summaries ++ tail).
Proof.
  intros Hllm Hchunks Hquiet.
  split; [ | split; [ reflexivity | split; [ reflexivity | split ] ] ]; cycle 1.
  { unfold CHUNK_SUMMARY_PROMPT. eexists. eexists.
    split; [ | split ]; cycle 2.
    - intros chunk. reflexivity.
    - vm_compute. discriminate.
    - vm_compute. discriminate. }
  { unfold COMBINE_SUMMARY_PROMPT. eexists. eexists.
    split; [ | split ]; cycle 2.
    - intros summaries. reflexivity.
    - vm_compute. discriminate.
    - vm_compute. discriminate. }
  pose proof (sound_summarize_long_text text model_name h) as Hfaithful.
  destruct (summarize_long_text_cases text model_name h)
    as [ (e & Hno & _) | [ (llm' & e & _ & Hno & _)
       | [ (llm' & chunks' & e & evs & _ & _ & Hfail & Hrun)
       | (llm' & chunks' & partials & final & Hllm' & Hchunks' & Hlen & Hrun) ] ] ].
  - congruence.
  - congruence.
  - rewrite Hrun in Hquiet. cbn [snd failures] in Hquiet. congruence.
  - assert (llm' = llm) as -> by congruence.
    assert (chunks' = chunks) as -> by congruence.
    exists partials, final. rewrite Hrun in *. cbn [snd] in *.
    assert (Hinv : invocations
              (Enter F_summarize_long_text :: Enter F_chunk_text ::
                 answered llm chunks partials ++
                 [Invoke llm (COMBINE_SUMMARY_PROMPT (join separator partials)) (Ok final)])
              = map CHUNK_SUMMARY_PROMPT chunks ++
                [COMBINE_SUMMARY_PROMPT (join separator partials)]).
    { cbn [invocations]. rewrite invocations_app, (invocations_answered _ _ _ Hlen).
      reflexivity. }
    split; [ exact Hlen | split; [ reflexivity | split; [ exact Hinv | split; [ | split ] ] ] ].
    + rewrite Hinv, length_app, length_map. simpl. lia.
    + exact Hfaithful.
    + intros p Hin. apply join_holds. exact Hin.
Qed.

(** C3. When a model call raises [e], [summarize_text] and
    [summarize_long_text] still return a dictionary, and it is the one of
    their [except] branch: no success, an empty summary, no chunk count, and
    as error the label of the function that caught [e] followed by the text
    of [e].  Whatever partial summaries had been gathered are not in it. *)
Theorem summarization_failure_outcome text model_name h e :
  (In e (failures (snd (summarize_text text model_name h))) ->
     exists label, (label = short_label \/ label = long_label) /\
       fst (summarize_text text model_name h) = Ok (failed label e)) /\
  (In e (failures (snd (summarize_long_text text model_name h))) ->
     fst (summarize_long_text text model_name h) = Ok (failed long_label e)).
Proof.
  assert (Hlong : forall h',
    In e (failures (snd (summarize_long_text text model_name h'))) ->
    fst (summarize_long_text text model_name h') = Ok (failed long_label e)).
  { intros h' Hin.
    destruct (summarize_long_text_cases text model_name h')
      as [ (e' & _ & Hrun) | [ (llm' & e' & _ & _ & Hrun)
         | [ (llm' & chunks' & e' & evs & _ & _ & Hfail & Hrun)
         | (llm' & chunks' & partials & final & _ & _ & _ & Hrun) ] ] ];
      rewrite Hrun in *; cbn [fst snd failures] in *.
    - destruct Hin.
    - destruct Hin.
    - rewrite Hfail in Hin. destruct Hin as [ -> | [] ]. reflexivity.
    - rewrite failures_app, failures_answered in Hin. destruct Hin. }
  split; [ | apply Hlong ].
  intros Hin. destruct (get_llm model_name) as [ llm | e' ] eqn:Hllm.
  - destruct (Z.le_gt_cases (len text) 30000) as [ Hle | Hgt ].
    + rewrite (summarize_text_single _ _ _ _ Hllm Hle) in *. cbn [fst snd failures] in *.
      destruct (model_reply (h ++ [Enter F_summarize_text]) llm (SUMMARY_PROMPT text))
        as [ s | e'' ]; [ destruct Hin | ].
      destruct Hin as [ -> | [] ]. exists short_label. split; [ left | ]; reflexivity.
    + rewrite (summarize_text_long _ _ _ _ Hllm Hgt) in *. cbn [fst snd failures] in *.
      exists long_label. split; [ right; reflexivity | apply Hlong; exact Hin ].
  - rewrite (summarize_text_no_llm _ _ _ _ Hllm) in Hin. destruct Hin.
Qed.

End Summarisation.

(** C1 at work: a text of 500 characters makes one call, with the summary
    prompt, which holds the 500 characters, and enters neither the long path
    nor the chunker. *)
Lemma summarize_text_decides_witness :
  ai_engine.get_llm (world := Demo.steady) None = Ok Demo.gemini_pro /\
  len (Demo.letters 500) <= 30000 /\
  invocations (snd (ai_engine.summarize_text (world := Demo.steady) (Demo.letters 500) None []))
    = [ai_engine.SUMMARY_PROMPT (Demo.letters 500)] /\
  ~ In (Enter F_summarize_long_text)
       (snd (ai_engine.summarize_text (world := Demo.steady) (Demo.letters 500) None [])) /\
  ~ In (Enter F_chunk_text)
       (snd (ai_engine.summarize_text (world := Demo.steady) (Demo.letters 500) None [])) /\
  (exists head tail,
     ai_engine.SUMMARY_PROMPT (Demo.letters 500) = head ++ Demo.letters 500 ++ tail).
Proof.
  assert (Hshort : len (Demo.letters 500) <= 30000) by (vm_compute; discriminate).
  split; [ reflexivity | split; [ exact Hshort | ] ].
  destruct (summarize_text_decides (world := Demo.steady) (Demo.letters 500) None
              Demo.gemini_pro [] eq_refl) as (Hiff & _ & Hsingle & Hprompt).
  destruct (Hsingle Hshort) as (_ & Hcalls & Hnochunk).
  split; [ exact Hcalls | split; [ | split; [ exact Hnochunk | ] ] ].
  - intros Hin. apply Hiff in Hin. vm_compute in Hin. discriminate Hin.
  - destruct Hprompt as (head & tail & _ & _ & Hwhole).
    exists head, tail. apply Hwhole.
Defined.

(** C2 at work: 8001 characters cut into two chunks make three calls, the
    third on the two partial summaries with the rule between them, and the
    answer to the third is the summary. *)
Lemma summarize_long_text_map_reduce_witness :
  text_processor.chunk_text (world := Demo.steady) (Demo.letters 8001) (Some 8000) (Some 500)
    = Ok [Demo.letters 8000; Demo.letters 501] /\
  List.length
    (invocations
       (snd (ai_engine.summarize_long_text (world := Demo.steady) (Demo.letters 8001) None [])))
    = 3%nat /\
  invocations
    (snd (ai_engine.summarize_long_text (world := Demo.steady) (Demo.letters 8001) None []))
    = [ai_engine.CHUNK_SUMMARY_PROMPT (Demo.letters 8000);
       ai_engine.CHUNK_SUMMARY_PROMPT (Demo.letters 501);
       ai_engine.COMBINE_SUMMARY_PROMPT
         (lit "S1" ++ [10%N; 10%N] ++ lit "---" ++ [10%N; 10%N] ++ lit "S2")] /\
  fst (ai_engine.summarize_long_text (world := Demo.steady) (Demo.letters 8001) None [])
    = Ok (reduced (lit "S3") 2).
Proof.
  assert (Hchunks :
    text_processor.chunk_text (world := Demo.steady) (Demo.letters 8001) (Some 8000) (Some 500)
      = Ok [Demo.letters 8000; Demo.letters 501])
    by (vm_compute; reflexivity).
  split; [ exact Hchunks | ].
  destruct (summarize_long_text_map_reduce (world := Demo.steady) (Demo.letters 8001) None
              Demo.gemini_pro _ [] eq_refl Hchunks)
    as ((partials & final & _ & _ & _ & Hcount & _) & _).
  - vm_compute. reflexivity.
  - split; [ exact Hcount | split; vm_compute; reflexivity ].
Defined.

(** C3 at work: a provider that is down fails the single call of a short
    text; one that fails on its second call loses the first partial summary
    of a long one. *)
Lemma summarization_failure_outcome_witness :
  (exists label, (label = short_label \/ label = long_label) /\
     fst (ai_engine.summarize_text (world := Demo.failing_after 0) (Demo.letters 500) None [])
       = Ok (failed label (Raised (lit "429 quota exceeded")))) /\
  fst (ai_engine.summarize_long_text (world := Demo.failing_after 1) (Demo.letters 8001) None [])
    = Ok (failed long_label (Raised (lit "429 quota exceeded"))).
Proof.
  split.
  - apply (summarization_failure_outcome (world := Demo.failing_after 0)
             (Demo.letters 500) None []).
    vm_compute. left. reflexivity.
  - apply (summarization_failure_outcome (world := Demo.failing_after 1)
             (Demo.letters 8001) None []).
    vm_compute. left. reflexivity.
Defined.

(** ** The decoder: the budget is never spent

    [json.loads] is modelled with a budget; it is never what makes a
    document fail: scanning a text with one more than its length always ends
    with a value or an error. *)

Section Decoder.
Import json.
Local Open Scope nat_scope.

Lemma skip_ws_length s : List.length (skip_ws s) <= List.length s.
Proof.
  induction s as [ | x s IH]; simpl; [ lia | ].
  destruct (is_ws x); simpl; lia.
Qed.

Lemma span_digits_length s : List.length (snd (span_digits s)) <= List.length s.
Proof.
  induction s as [ | x s IH]; simpl; [ lia | ].
  destruct (is_digit x); [ | simpl; lia ].
  destruct (span_digits s) as [ ds r ]. simpl in *. lia.
Qed.

Lemma after_prefix_length p : forall s rest,
  after_prefix p s = Some rest -> List.length rest <= List.length s.
Proof.
  induction p as [ | a p IH]; intros [ | b s ] rest Heq; simpl in Heq;
    try discriminate Heq.
  - injection Heq as <-. lia.
  - injection Heq as <-. lia.
  - destruct (N.eqb a b); [ | discriminate Heq ].
    apply IH in Heq. simpl. lia.
Qed.

Lemma number_sign_length s : List.length (snd (number_sign s)) <= List.length s.
Proof. destruct s as [ | x s ]; simpl; [ lia | ]. destruct (is_ x "-"); simpl; lia. Qed.

Lemma number_integer_length s ids r :
  number_integer s = Some (ids, r) -> List.length r <= List.length s.
Proof.
  destruct s as [ | x s ]; simpl; [ discriminate | ].
  destruct (is_ x "0"); [ intros [= _ <-]; lia | ].
  destruct (is_digit x); [ | discriminate ].
  pose proof (span_digits_length s) as L. destruct (span_digits s) as [ ds r' ].
  intros [= _ <-]. simpl in L. lia.
Qed.

Lemma number_frac_length s : List.length (snd (number_frac s)) <= List.length s.
Proof.
  destruct s as [ | x s ]; simpl; [ lia | ].
  destruct (is_ x "."); [ | simpl; lia ].
  pose proof (span_digits_length s) as L. destruct (span_digits s) as [ [ | d ds ] r' ];
    simpl in *; lia.
Qed.

Lemma number_exp_length s : List.length (snd (number_exp s)) <= List.length s.
Proof.
  destruct s as [ | x s ]; simpl; [ lia | ].
  destruct (is_ x "e" || is_ x "E"); [ | simpl; lia ].
  assert (Hsign : forall eneg r',
    (eneg, r') = match s with
                 | y :: r'' => if is_ y "-" then (true, r'')
                               else if is_ y "+" then (false, r'') else (false, s)
                 | [] => (false, s)
                 end -> List.length r' <= List.length s).
  { intros eneg r'. destruct s as [ | y r'' ]; [ intros [= _ ->]; simpl; lia | ].
    destruct (is_ y "-"); [ intros [= _ ->]; simpl; lia | ].
    destruct (is_ y "+"); intros [= _ ->]; simpl; lia. }
  destruct (match s with [] => _ | _ => _ end) as [ eneg r' ].
  specialize (Hsign eneg r' eq_refl).
  pose proof (span_digits_length r') as L. destruct (span_digits r') as [ [ | d ds ] r'' ];
    simpl in *; lia.
Qed.

Lemma match_number_length s v rest :
  match_number s = Some (v, rest) -> List.length rest <= List.length s.
Proof.
  unfold match_number.
  pose proof (number_sign_length s) as L0. destruct (number_sign s) as [ neg s1 ].
  destruct (number_integer s1) as [ [ ids r1 ] | ] eqn:Hint; [ | discriminate ].
  apply number_integer_length in Hint.
  pose proof (number_frac_length r1) as L2. destruct (number_frac r1) as [ frac r2 ].
  pose proof (number_exp_length r2) as L3. destruct (number_exp r2) as [ exp r3 ].
  simpl in *. destruct frac, exp; intros [= _ <-]; lia.
Qed.

Lemma scanstring_length : forall n s t rest,
  List.length s <= n -> scanstring s = Some (t, rest) -> List.length rest <= List.length s.
Proof.
  induction n as [ | n IH ]; intros s t rest Hn Heq.
  - destruct s; [ discriminate Heq | simpl in Hn; lia ].
  - assert (Hcons : forall (x : char) (s' : str),
      match scanstring s' with
      | Some (t', rest') => Some (x :: t', rest')
      | None => None
      end = Some (t, rest) ->
      List.length s' <= n ->
      List.length rest <= List.length s').
    { intros x s' Hc Hs'.
      destruct (scanstring s') as [ [ t' rest' ] | ] eqn:Hs; [ | discriminate Hc ].
      injection Hc as _ <-. exact (IH _ _ _ Hs' Hs). }
    destruct s as [ | x s1 ]; [ discriminate Heq | ].
    cbn [List.length] in Hn. cbn [scanstring] in Heq. cbv zeta in Heq.
    destruct (is_ x "034"); [ injection Heq as _ <-; cbn [List.length]; lia | ].
    destruct (is_ x "\").
    + destruct s1 as [ | esc s2 ]; [ discriminate Heq | ].
      destruct (is_ esc "u").
      * destruct s2 as [ | a [ | b [ | c [ | d s3 ] ] ] ]; try discriminate Heq.
        destruct (decode_uXXXX a b c d) as [ uni | ]; [ | discriminate Heq ].
        cbn [List.length] in Hn.
        destruct s3 as [ | bs [ | u [ | a' [ | b' [ | c' [ | d' s4 ] ] ] ] ] ].
        1-6: apply Hcons in Heq; cbn [List.length] in *; lia.
        destruct (is_high_surrogate uni && is_ bs "\" && is_ u "u");
          [ | apply Hcons in Heq; cbn [List.length] in *; lia ].
        destruct (decode_uXXXX a' b' c' d') as [ uni2 | ]; [ | discriminate Heq ].
        destruct (is_low_surrogate uni2); apply Hcons in Heq; cbn [List.length] in *; lia.
      * destruct (BACKSLASH esc); [ | discriminate Heq ].
        apply Hcons in Heq; cbn [List.length] in *; lia.
    + destruct (x <? 32)%N; [ discriminate Heq | ].
      apply Hcons in Heq; cbn [List.length] in *; lia.
Qed.

Lemma shorter_invalid s : shorter s Invalid.
Proof. split; [ discriminate | intros v rest; discriminate ]. Qed.

Lemma shorter_scanned s v rest :
  List.length rest <= List.length s -> shorter s (Scanned v rest).
Proof. intros Hle. split; [ discriminate | intros v' rest' [= _ <-]; exact Hle ]. Qed.

Lemma shorter_weaken s s' r :
  List.length s' <= List.length s -> shorter s' r -> shorter s r.
Proof.
  intros Hle [ Hfuel Hrest ]. split; [ exact Hfuel | ].
  intros v rest Heq. specialize (Hrest v rest Heq). lia.
Qed.

Lemma shorter_atom s : shorter s (scan_atom s).
Proof.
  unfold scan_atom.
  repeat match goal with
  | |- context [after_prefix ?p ?t] =>
      let Hp := fresh "Hp" in
      destruct (after_prefix p t) eqn:Hp;
      [ apply after_prefix_length in Hp; try (apply shorter_scanned; exact Hp) | ]
  | |- context [match_number ?t] =>
      let Hm := fresh "Hm" in
      destruct (match_number t) as [ [ ? ? ] | ] eqn:Hm;
      [ apply match_number_length in Hm; try (apply shorter_scanned; exact Hm) | ]
  end.
  all: try apply shorter_invalid.
  all: apply shorter_scanned; assumption.
Qed.

Lemma shorter_array_loop scan_once n :
  (forall s', List.length s' <= n -> shorter s' (scan_once s')) ->
  forall fuel s values,
    List.length s <= n -> List.length s < fuel ->
    shorter s (array_loop scan_once fuel s values).
Proof.
  intros Hscan. induction fuel as [ | fuel IH ]; intros s values Hn Hfuel; [ lia | ].
  cbn [array_loop]. destruct (Hscan s Hn) as [ Hne Hrest ].
  destruct (scan_once s) as [ v rest | | ]; [ | apply shorter_invalid | congruence ].
  specialize (Hrest v rest eq_refl).
  pose proof (skip_ws_length rest) as L.
  destruct (skip_ws rest) as [ | x rest' ]; [ apply shorter_invalid | ].
  cbn [List.length] in L.
  destruct (is_ x "]"); [ apply shorter_scanned; lia | ].
  destruct (is_ x ","); [ | apply shorter_invalid ].
  pose proof (skip_ws_length rest') as L'.
  apply (shorter_weaken _ (skip_ws rest')); [ lia | ].
  apply IH; lia.
Qed.

Lemma shorter_object_loop scan_once n :
  (forall s', List.length s' <= n -> shorter s' (scan_once s')) ->
  forall fuel s pairs,
    List.length s <= n -> List.length s < fuel ->
    shorter s (object_loop scan_once fuel s pairs).
Proof.
  intros Hscan. induction fuel as [ | fuel IH ]; intros s pairs Hn Hfuel; [ lia | ].
  cbn [object_loop].
  destruct (scanstring s) as [ [ key r1 ] | ] eqn:Hkey; [ | apply shorter_invalid ].
  apply (scanstring_length _ _ _ _ (le_n _)) in Hkey.
  pose proof (skip_ws_length r1) as L1.
  destruct (skip_ws r1) as [ | colon r2 ]; [ apply shorter_invalid | ].
  cbn [List.length] in L1.
  destruct (is_ colon ":"); [ | apply shorter_invalid ].
  pose proof (skip_ws_length r2) as L2.
  destruct (Hscan (skip_ws r2) ltac:(lia)) as [ Hne Hrest ].
  destruct (scan_once (skip_ws r2)) as [ v r3 | | ];
    [ | apply shorter_invalid | congruence ].
  specialize (Hrest v r3 eq_refl).
  pose proof (skip_ws_length r3) as L3.
  destruct (skip_ws r3) as [ | x r4 ]; [ apply shorter_invalid | ].
  cbn [List.length] in L3.
  destruct (is_ x "}"); [ apply shorter_scanned; lia | ].
  destruct (is_ x ","); [ | apply shorter_invalid ].
  pose proof (skip_ws_length r4) as L4.
  destruct (skip_ws r4) as [ | q r5 ]; [ apply shorter_invalid | ].
  cbn [List.length] in L4.
  destruct (is_ q "034"); [ | apply shorter_invalid ].
  apply (shorter_weaken _ r5); [ lia | ].
  apply IH; lia.
Qed.

Lemma shorter_scan_once : forall fuel s,
  List.length s < fuel -> shorter s (scan_once fuel s).
Proof.
  induction fuel as [ | fuel IH ]; intros s Hfuel; [ lia | ].
  destruct s as [ | nextchar s1 ]; [ apply shorter_invalid | ].
  cbn [List.length] in Hfuel.
  change (scan_once (S fuel) (nextchar :: s1)) with
    (if is_ nextchar "034" then
       match scanstring s1 with
       | Some (t, rest) => Scanned (VStr t) rest
       | None => Invalid
       end
     else if is_ nextchar "{" then JSONObject (scan_once fuel) fuel s1
     else if is_ nextchar "[" then JSONArray (scan_once fuel) fuel s1
     else scan_atom (nextchar :: s1)).
  destruct (is_ nextchar "034").
  { destruct (scanstring s1) as [ [ t rest ] | ] eqn:Hs; [ | apply shorter_invalid ].
    apply shorter_scanned. apply (scanstring_length _ _ _ _ (le_n _)) in Hs.
    cbn [List.length]. lia. }
  destruct (is_ nextchar "{").
  { unfold JSONObject. pose proof (skip_ws_length s1) as L.
    destruct (skip_ws s1) as [ | x rest ]; [ apply shorter_invalid | ].
    cbn [List.length] in L.
    destruct (is_ x "}"); [ apply shorter_scanned; cbn [List.length]; lia | ].
    destruct (is_ x "034"); [ | apply shorter_invalid ].
    apply (shorter_weaken _ rest); [ cbn [List.length]; lia | ].
    apply (shorter_object_loop _ (List.length rest)); [ | lia | lia ].
    intros s' Hs'. apply IH. lia. }
  destruct (is_ nextchar "[").
  { unfold JSONArray. pose proof (skip_ws_length s1) as L.
    destruct (skip_ws s1) as [ | x rest ]; [ apply shorter_invalid | ].
    destruct (is_ x "]");
      [ apply shorter_scanned; cbn [List.length] in *; lia | ].
    apply (shorter_weaken _ (x :: rest)); [ cbn [List.length] in *; lia | ].
    apply (shorter_array_loop _ (List.length (x :: rest))); [ | lia | lia ].
    intros s' Hs'. apply IH. lia. }
  apply shorter_atom.
Qed.

(** The budget [loads] gives suffices for every document. *)
Lemma loads_fuel_enough s : scan_once (fuel_for s) s <> OutOfFuel.
Proof. apply shorter_scan_once. unfold fuel_for. lia. Qed.

End Decoder.

(** ** The bracket search *)

Section Search.
Import re.

Lemma is_close x : json.is_ x "]" = true <-> x = 93%N.
Proof. unfold json.is_. change (N_of_ascii "]") with 93%N. apply N.eqb_eq. Qed.

Lemma is_open x : json.is_ x "[" = true <-> x = 91%N.
Proof. unfold json.is_. change (N_of_ascii "[") with 91%N. apply N.eqb_eq. Qed.

Lemma upto_last_close_none s : upto_last_close s = None <-> ~ In 93%N s.
Proof.
  induction s as [ | x s IH ]; simpl; [ tauto | ].
  destruct (upto_last_close s) as [ t | ].
  - split; [ discriminate | ]. intros Hn. exfalso.
    assert (Hs : ~ In 93%N s) by tauto. apply IH in Hs. discriminate Hs.
  - destruct (json.is_ x "]") eqn:Hx.
    + apply is_close in Hx. split; [ discriminate | ]. intros Hn. exfalso. apply Hn.
      left. exact Hx.
    + split; [ intros _ | reflexivity ].
      intros [ Hx' | Hin ].
      * apply is_close in Hx'. congruence.
      * apply (proj1 IH eq_refl Hin).
Qed.

Lemma upto_last_close_some s : forall t,
  upto_last_close s = Some t <->
  exists mid post, s = mid ++ 93%N :: post /\ ~ In 93%N post /\ t = mid ++ [93%N].
Proof.
  induction s as [ | x s IH ]; intros t.
  - simpl. split; [ discriminate | ].
    intros (mid & post & Heq & _). destruct mid; discriminate Heq.
  - simpl. destruct (upto_last_close s) as [ t' | ] eqn:Hs.
    + destruct (proj1 (IH t') eq_refl) as (mid & post & -> & Hpost & ->).
      split.
      * intros [= <-]. exists (x :: mid), post. repeat split; auto.
      * intros (mid' & post' & Heq & Hpost' & ->). f_equal.
        destruct mid' as [ | y mid' ].
        -- simpl in Heq. injection Heq as _ <-. exfalso. apply Hpost'.
           apply in_or_app. right. left. reflexivity.
        -- simpl in Heq. injection Heq as <- Heq. simpl. f_equal.
           assert (Hsome : Some (mid ++ [93%N]) = Some (mid' ++ [93%N])).
           { apply (IH (mid' ++ [93%N])). exists mid', post'. auto. }
           congruence.
    + apply upto_last_close_none in Hs.
      destruct (json.is_ x "]") eqn:Hx.
      * apply is_close in Hx. subst x.
        split.
        -- intros [= <-]. exists [], s. auto.
        -- intros (mid & post & Heq & Hpost & ->).
           destruct mid as [ | y mid ]; [ reflexivity | ].
           simpl in Heq. injection Heq as _ ->. exfalso. apply Hs.
           apply in_or_app. right. left. reflexivity.
      * split; [ discriminate | ].
        intros (mid & post & Heq & Hpost & ->).
        destruct mid as [ | y mid ]; simpl in Heq; injection Heq as -> ->.
        -- discriminate Hx.
        -- exfalso. apply Hs. apply in_or_app. right. left. reflexivity.
Qed.

(** The match is the text from the first opening bracket to the last closing
    bracket after it. *)
Lemma search_bracketed_spec s : forall group,
  search_bracketed s = Some group <->
  exists pre mid post,
    s = pre ++ 91%N :: mid ++ 93%N :: post /\
    ~ In 91%N pre /\ ~ In 93%N post /\ group = 91%N :: mid ++ [93%N].
Proof.
  induction s as [ | x s IH ]; intros group.
  - simpl. split; [ discriminate | ].
    intros (pre & mid & post & Heq & _). destruct pre; discriminate Heq.
  - simpl. destruct (json.is_ x "[") eqn:Hx.
    + apply is_open in Hx. subst x.
      destruct (upto_last_close s) as [ t | ] eqn:Hs.
      * apply upto_last_close_some in Hs. destruct Hs as (mid & post & -> & Hpost & ->).
        split.
        -- intros [= <-]. exists [], mid, post. auto.
        -- intros (pre & mid' & post' & Heq & Hpre & Hpost' & ->).
           destruct pre as [ | y pre ].
           ++ simpl in Heq. injection Heq as Heq. f_equal. f_equal.
              assert (Hsome : upto_last_close (mid ++ 93%N :: post) = Some (mid' ++ [93%N])).
              { apply upto_last_close_some. exists mid', post'. auto. }
              assert (Hsome' : upto_last_close (mid ++ 93%N :: post) = Some (mid ++ [93%N])).
              { apply upto_last_close_some. exists mid, post. auto. }
              congruence.
           ++ simpl in Heq. injection Heq as <- _. exfalso. apply Hpre. left. reflexivity.
      * apply upto_last_close_none in Hs. split; [ discriminate | ].
        intros (pre & mid' & post' & Heq & Hpre & Hpost' & ->).
        destruct pre as [ | y pre ].
        -- simpl in Heq. injection Heq as ->. exfalso. apply Hs.
           apply in_or_app. right. left. reflexivity.
        -- simpl in Heq. injection Heq as <- _. exfalso. apply Hpre. left. reflexivity.
    + rewrite IH. split.
      * intros (pre & mid & post & -> & Hpre & Hpost & ->).
        exists (x :: pre), mid, post. repeat split; auto.
        intros [ Hx' | Hin ]; [ | tauto ].
        subst x. discriminate Hx.
      * intros (pre & mid & post & Heq & Hpre & Hpost & ->).
        destruct pre as [ | y pre ].
        -- simpl in Heq. injection Heq as -> _. discriminate Hx.
        -- simpl in Heq. injection Heq as <- ->.
           exists pre, mid, post. repeat split; auto.
           intros Hin. apply Hpre. right. exact Hin.
Qed.

(** Without an opening bracket, or without a closing one, nothing matches. *)
Lemma search_bracketed_none s :
  ~ In 91%N s \/ ~ In 93%N s -> search_bracketed s = None.
Proof.
  intros Hno. destruct (search_bracketed s) as [ group | ] eqn:Hs; [ | reflexivity ].
  apply search_bracketed_spec in Hs. destruct Hs as (pre & mid & post & -> & _).
  exfalso. destruct Hno as [ Hno | Hno ]; apply Hno.
  - apply in_or_app. right. left. reflexivity.
  - apply in_or_app. right. right. apply in_or_app. right. left. reflexivity.
Qed.
End Search.

(** ** The quiz generator *)

Section Quiz.
Context {world : Externals}.
Import ai_engine.

(** The parsing policy, step by step: the whole reply first; failing that,
    the bracketed span; failing that, [None]. *)
Lemma parse_quiz_response_policy response :
  (forall v, json.loads response = Some v -> parse_quiz_response response = v) /\
  (json.loads response = None ->
     forall group, re.search_bracketed response = Some group ->
     (forall v, json.loads group = Some v -> parse_quiz_response response = v) /\
     (json.loads group = None -> parse_quiz_response response = json.VNone)) /\
  (json.loads response = None -> re.search_bracketed response = None ->
     parse_quiz_response response = json.VNone).
Proof.
  unfold parse_quiz_response. split; [ | split ].
  - intros v ->. reflexivity.
  - intros Hwhole group Hspan. rewrite Hwhole, Hspan.
    split; [ intros v -> | intros -> ]; reflexivity.
  - intros -> ->. reflexivity.
Qed.

Lemma generate_quiz_no_llm summary num_questions model_name h e :
  get_llm model_name = Raise e ->
  generate_quiz summary num_questions model_name h =
    (Ok (quiz_failed e), [Enter F_generate_quiz]).
Proof.
  intros Hllm. unfold generate_quiz, try_except, bind, enter, emit, lift, ret.
  rewrite Hllm. reflexivity.
Qed.

Lemma generate_quiz_run summary num_questions model_name h llm :
  get_llm model_name = Ok llm ->
  let prompt :=
    QUIZ_PROMPT summary
      (text_processor.opt_default num_questions config.DEFAULT_NUM_QUESTIONS) in
  let reply := model_reply (h ++ [Enter F_generate_quiz]) llm prompt in
  generate_quiz summary num_questions model_name h =
    (Ok (quiz_outcome reply), [Enter F_generate_quiz; Invoke llm prompt reply]).
Proof.
  intros Hllm prompt reply.
  unfold generate_quiz, try_except, bind, enter, emit, lift, ret, invoke.
  rewrite Hllm. cbn [app]. rewrite !app_nil_r. fold prompt. fold reply.
  destruct reply as [ response | e ]; [ | reflexivity ].
  unfold quiz_outcome. destruct (json.truthy (parse_quiz_response response)); reflexivity.
Qed.

Lemma generate_quiz_returns summary num_questions model_name h :
  exists r evs,
    generate_quiz summary num_questions model_name h = (Ok r, Enter F_generate_quiz :: evs).
Proof.
  destruct (get_llm model_name) as [ llm | e ] eqn:Hllm.
  - rewrite (generate_quiz_run _ _ _ _ _ Hllm). eexists _, _. reflexivity.
  - rewrite (generate_quiz_no_llm _ _ _ _ _ Hllm). eexists _, _. reflexivity.
Qed.

(** When neither step decodes anything, the quiz is reported as unparsed. *)
Lemma unparsable_reply_is_failure summary num_questions model_name llm h response :
  get_llm model_name = Ok llm ->
  model_reply (h ++ [Enter F_generate_quiz]) llm
    (QUIZ_PROMPT summary
       (text_processor.opt_default num_questions config.DEFAULT_NUM_QUESTIONS))
    = Ok response ->
  json.loads response = None ->
  (forall group, re.search_bracketed response = Some group -> json.loads group = None) ->
  fst (generate_quiz summary num_questions model_name h) = Ok unparsed.
Proof.
  intros Hllm Hreply Hwhole Hspan.
  rewrite (generate_quiz_run _ _ _ _ _ Hllm), Hreply. cbn [fst quiz_outcome].
  assert (Hparse : parse_quiz_response response = json.VNone).
  { unfold parse_quiz_response. rewrite Hwhole.
    destruct (re.search_bracketed response) as [ group | ]; [ | reflexivity ].
    rewrite (Hspan group eq_refl). reflexivity. }
  rewrite Hparse. reflexivity.
Qed.

(** C9. The reply [[]] decodes, to the empty list; and whenever the reply
    decodes to the empty list, [generate_quiz] returns the very dictionary
    it returns when nothing could be decoded: no success, an empty quiz,
    "Failed to parse quiz response. Please try again.". *)
Theorem empty_quiz_reported_as_failure summary num_questions model_name llm h response :
  get_llm model_name = Ok llm ->
  model_reply (h ++ [Enter F_generate_quiz]) llm
    (QUIZ_PROMPT summary
       (text_processor.opt_default num_questions config.DEFAULT_NUM_QUESTIONS))
    = Ok response ->
  (json.loads (lit "[]") = Some (json.VList []) /\
   parse_quiz_response (lit "[]") = json.VList []) /\
  (parse_quiz_response response = json.VList [] \/
   parse_quiz_response response = json.VNone ->
   fst (generate_quiz summary num_questions model_name h) = Ok unparsed) /\
  quiz_error unparsed = Some (lit "Failed to parse quiz response. Please try again.") /\
  quiz unparsed = json.VList [] /\ quiz_success unparsed = false.
Proof.
  intros Hllm Hreply. split; [ split; reflexivity | split ].
  - intros Hparse. rewrite (generate_quiz_run _ _ _ _ _ Hllm), Hreply.
    cbn [fst quiz_outcome]. destruct Hparse as [ -> | -> ]; reflexivity.
  - repeat split.
Qed.

(** C10. Whatever the reply decodes to is what [parse_quiz_response]
    returns, a list or not; and when that value is truthy [generate_quiz]
    returns it as the quiz, with success.  The number 7 and an object with
    one key are such values. *)
Theorem non_array_quiz_accepted summary num_questions model_name llm h response v :
  get_llm model_name = Ok llm ->
  model_reply (h ++ [Enter F_generate_quiz]) llm
    (QUIZ_PROMPT summary
       (text_processor.opt_default num_questions config.DEFAULT_NUM_QUESTIONS))
    = Ok response ->
  json.loads response = Some v ->
  parse_quiz_response response = v /\
  (json.truthy v = true ->
     fst (generate_quiz summary num_questions model_name h) = Ok (accepted v)) /\
  (json.loads (lit "7") = Some (json.VInt 7) /\
   json.truthy (json.VInt 7) = true /\ is_list (json.VInt 7) = false) /\
  (json.loads (lit ("{" ++ dq ++ "a" ++ dq ++ ": 1}"))
     = Some (json.VDict [(lit "a", json.VInt 1)]) /\
   json.truthy (json.VDict [(lit "a", json.VInt 1)]) = true /\
   is_list (json.VDict [(lit "a", json.VInt 1)]) = false).
Proof.
  intros Hllm Hreply Hloads.
  assert (Hparse : parse_quiz_response response = v)
    by (apply parse_quiz_response_policy; exact Hloads).
  split; [ exact Hparse | split ].
  - intros Htruthy. rewrite (generate_quiz_run _ _ _ _ _ Hllm), Hreply.
    cbn [fst quiz_outcome]. rewrite Hparse, Htruthy. reflexivity.
  - split; repeat split; reflexivity.
Qed.

End Quiz.

(** C9 at work: a model that answers [[]] and a model that answers prose get
    the same dictionary back. *)
Lemma empty_quiz_reported_as_failure_witness :
  fst (ai_engine.generate_quiz (world := Demo.parrot (lit "[]")) (lit "notes") None None [])
    = Ok unparsed /\
  fst (ai_engine.generate_quiz (world := Demo.parrot (lit "Sorry, no quiz."))
         (lit "notes") None None [])
    = Ok unparsed.
Proof.
  split.
  - apply (empty_quiz_reported_as_failure (world := Demo.parrot (lit "[]"))
             (lit "notes") None None Demo.gemini_pro [] (lit "[]") eq_refl eq_refl).
    left. reflexivity.
  - apply (empty_quiz_reported_as_failure (world := Demo.parrot (lit "Sorry, no quiz."))
             (lit "notes") None None Demo.gemini_pro [] (lit "Sorry, no quiz.")
             eq_refl eq_refl).
    right. reflexivity.
Defined.

(** C10 at work: a model that answers 7 gets the number 7 accepted as the
    quiz. *)
Lemma non_array_quiz_accepted_witness :
  ai_engine.parse_quiz_response (lit "7") = json.VInt 7 /\
  fst (ai_engine.generate_quiz (world := Demo.parrot (lit "7")) (lit "notes") None None [])
    = Ok (accepted (json.VInt 7)).
Proof.
  destruct (non_array_quiz_accepted (world := Demo.parrot (lit "7"))
              (lit "notes") None None Demo.gemini_pro [] (lit "7") (json.VInt 7)
              eq_refl eq_refl eq_refl) as (Hparse & Hquiz & _).
  split; [ exact Hparse | apply Hquiz; reflexivity ].
Defined.

(** C4, at the input where the code departs from it: the reply 42 holds no
    bracket at all, yet it decodes, and [generate_quiz] returns the number
    as the quiz with success, where a failure outcome is due (and where
    [parse_quiz_response] documents a list or [None]). *)
Theorem bracketless_reply_accepted :
  ~ In 91%N (lit "42") /\ ~ In 93%N (lit "42") /\
  re.search_bracketed (lit "42") = None /\
  ai_engine.parse_quiz_response (lit "42") = json.VInt 42 /\
  ai_engine.generate_quiz (world := Demo.parrot (lit "42")) (lit "notes") (Some 5) None []
    = (Ok (accepted (json.VInt 42)),
       [Enter F_generate_quiz;
        Invoke Demo.gemini_pro (ai_engine.QUIZ_PROMPT (lit "notes") 5) (Ok (lit "42"))]).
Proof.
  split; [ | split; [ | split; [ | split ] ] ]; try reflexivity.
  - intros [ Hin | [ Hin | [] ] ]; discriminate Hin.
  - intros [ Hin | [ Hin | [] ] ]; discriminate Hin.
Qed.

(** ** The pipeline *)

Section Pipeline.
Context {world : Externals}.
Import app.

Lemma run_pair {A} (m : M A) h r : fst (m h) = r -> m h = (r, snd (m h)).
Proof. intros <-. destruct (m h); reflexivity. Qed.

Lemma emits_ret P {A} (a : A) : emits P (ret a).
Proof. intros h. constructor. Qed.

Lemma emits_lift P {A} (r : result A) : emits P (lift r).
Proof. intros h. constructor. Qed.

Lemma emits_emit (P : event -> Prop) ev : P ev -> emits P (emit ev).
Proof. intros Hev h. constructor; [ exact Hev | constructor ]. Qed.

Lemma emits_invoke (P : event -> Prop) llm prompt :
  (forall reply, P (Invoke llm prompt reply)) -> emits P (invoke llm prompt).
Proof. intros Hev h. constructor; [ apply Hev | constructor ]. Qed.

Lemma emits_bind P {A B} (m : M A) (k : A -> M B) :
  emits P m -> (forall a, emits P (k a)) -> emits P (bind m k).
Proof.
  intros Hm Hk h. unfold bind. specialize (Hm h).
  destruct (m h) as [ [ a | e ] e1 ]; [ | exact Hm ].
  specialize (Hk a (h ++ e1)). destruct (k a (h ++ e1)) as [ r e2 ].
  apply Forall_app. split; assumption.
Qed.

Lemma emits_try_except P {A} (body : M A) handler :
  emits P body -> (forall e, emits P (handler e)) -> emits P (try_except body handler).
Proof.
  intros Hm Hk h. unfold try_except. specialize (Hm h).
  destruct (body h) as [ [ a | e ] e1 ]; [ exact Hm | ].
  specialize (Hk e (h ++ e1)). destruct (handler e (h ++ e1)) as [ r e2 ].
  apply Forall_app. split; assumption.
Qed.

Ltac emits_steps :=
  repeat first
    [ progress cbv zeta
    | apply emits_bind; [ | intro ]
    | apply emits_try_except; [ | intro ]
    | apply emits_ret
    | apply emits_lift
    | apply emits_invoke; intro; discriminate
    | apply emits_emit; discriminate ].

Lemma summarize_chunks_emits llm chunks : forall acc,
  emits not_quiz_entry (ai_engine.summarize_chunks llm chunks acc).
Proof.
  induction chunks as [ | c chunks IH ]; intros acc; simpl; unfold not_quiz_entry;
    emits_steps.
  apply IH.
Qed.

Lemma summarize_text_emits text model_name :
  emits not_quiz_entry (ai_engine.summarize_text text model_name).
Proof.
  unfold ai_engine.summarize_text, enter, not_quiz_entry. emits_steps.
  destruct (len text >? 30000); [ | emits_steps ].
  unfold ai_engine.summarize_long_text, enter. emits_steps.
  apply summarize_chunks_emits.
Qed.

(** C5. Once the text is extracted: when [summarize_text] returns a failure,
    [generate_quiz] is not entered, the error is shown and the run ends with
    neither summary nor quiz in the session; when it returns a summary and
    [generate_quiz] then returns a failure, the run goes on to its end with
    a warning, the summary is in the session and the quiz is not. *)
Theorem summary_blocks_quiz_does_not input num_questions model_name st h sr :
  ex_success (fst (fst (extract input))) = true ->
  let text := ex_text (fst (fst (extract input))) in
  let h1 := h ++ [extracted_msg] in
  let evs1 := snd (ai_engine.summarize_text text model_name h1) in
  let h2 := h1 ++ evs1 ++ [summary_msg] in
  let run := process_content input num_questions model_name st h in
  fst (ai_engine.summarize_text text model_name h1) = Ok sr ->
  (ai_engine.success sr = false ->
     ~ In (Enter F_generate_quiz) (snd run) /\
     snd run = extracted_msg :: evs1 ++ [summary_error_msg sr] /\
     exists st', fst run = Ok st' /\ summary st' = None /\ quiz st' = None) /\
  (ai_engine.success sr = true ->
     forall qr,
       fst (ai_engine.generate_quiz (ai_engine.summary sr) (Some num_questions)
              model_name h2) = Ok qr ->
       let evs2 := snd (ai_engine.generate_quiz (ai_engine.summary sr)
                          (Some num_questions) model_name h2) in
       (ai_engine.quiz_success qr = false ->
          snd run = extracted_msg :: evs1 ++ summary_msg :: evs2 ++
                      [quiz_warning_msg qr; quiz_ready_msg; StRerun] /\
          exists st', fst run = Ok st' /\
            summary st' = Some (ai_engine.summary sr) /\ quiz st' = None) /\
       (ai_engine.quiz_success qr = true ->
          exists st', fst run = Ok st' /\
            summary st' = Some (ai_engine.summary sr) /\
            quiz st' = Some (ai_engine.quiz qr))).
Proof.
  intros Hex text h1 evs1 h2 run Hsum.
  apply run_pair in Hsum. fold evs1 in Hsum.
  subst run. unfold process_content.
  destruct (extract input) as [ [ result fallback ] info ]. cbn [fst] in *.
  rewrite Hex. cbn [negb].
  rewrite (bind_ok _ _ h tt [extracted_msg] eq_refl). fold h1. subst text.
  rewrite (bind_ok _ _ h1 sr evs1 Hsum).
  split.
  - intros Hfail. rewrite Hfail.
    rewrite (bind_ok _ _ (h1 ++ evs1) tt [summary_error_msg sr] eq_refl).
    unfold ret. cbn [fst snd app].
    split; [ | split; [ reflexivity | ] ].
    + intros Hin. destruct Hin as [ Hin | Hin ]; [ discriminate Hin | ].
      apply in_app_or in Hin. destruct Hin as [ Hin | [ Hin | [] ] ]; [ | discriminate Hin ].
      pose proof (summarize_text_emits (ex_text result) model_name h1) as Hquiet.
      fold evs1 in Hquiet. rewrite Forall_forall in Hquiet.
      exact (Hquiet _ Hin eq_refl).
    + eexists. split; [ reflexivity | split; reflexivity ].
  - intros Hok qr Hquiz. rewrite Hok.
    apply run_pair in Hquiz.
    set (evs2 := snd (ai_engine.generate_quiz (ai_engine.summary sr) (Some num_questions)
                        model_name h2)) in *.
    rewrite (bind_ok _ _ (h1 ++ evs1) tt [summary_msg] eq_refl).
    replace ((h1 ++ evs1) ++ [summary_msg]) with h2
      by (unfold h2; rewrite app_assoc; reflexivity).
    rewrite (bind_ok _ _ h2 qr evs2 Hquiz).
    split.
    + intros Hqfail. rewrite Hqfail.
      unfold bind, emit, ret. cbn [fst snd app].
      split; [ reflexivity | ].
      eexists. split; [ reflexivity | split; reflexivity ].
    + intros Hqok. rewrite Hqok.
      unfold bind, emit, ret. cbn [fst snd app].
      eexists. split; [ reflexivity | split; reflexivity ].
Qed.
End Pipeline.

(** C5 at work: with the provider down the summary fails and the quiz is
    never asked for; with a provider that fails on its second call the
    summary "S1" stays in the session and the quiz is absent. *)
Lemma summary_blocks_quiz_does_not_witness :
  (~ In (Enter F_generate_quiz)
        (snd (app.process_content (world := Demo.failing_after 0)
                (app.youtube (lit "https://youtu.be/x")) 5 None app.cleared [])) /\
   exists st',
     fst (app.process_content (world := Demo.failing_after 0)
            (app.youtube (lit "https://youtu.be/x")) 5 None app.cleared []) = Ok st' /\
     app.summary st' = None /\ app.quiz st' = None) /\
  (exists st',
     fst (app.process_content (world := Demo.failing_after 1)
            (app.youtube (lit "https://youtu.be/x")) 5 None app.cleared []) = Ok st' /\
     app.summary st' = Some (lit "S1") /\ app.quiz st' = None).
Proof.
  split.
  - pose proof (summary_blocks_quiz_does_not (world := Demo.failing_after 0)
                  (app.youtube (lit "https://youtu.be/x")) 5 None app.cleared []
                  (failed short_label (Raised (lit "429 quota exceeded")))
                  eq_refl eq_refl) as Hcase.
    cbv zeta in Hcase. destruct Hcase as [ Hblocked _ ].
    destruct (Hblocked eq_refl) as (Hnoquiz & _ & Hstate).
    split; [ exact Hnoquiz | exact Hstate ].
  - pose proof (summary_blocks_quiz_does_not (world := Demo.failing_after 1)
                  (app.youtube (lit "https://youtu.be/x")) 5 None app.cleared []
                  (single_shot (Ok (lit "S1")))
                  eq_refl eq_refl) as Hcase.
    cbv zeta in Hcase. destruct Hcase as [ _ Hsoft ].
    destruct (Hsoft eq_refl (quiz_failed (Raised (lit "429 quota exceeded"))) eq_refl)
      as [ Hfailed _ ].
    destruct (Hfailed eq_refl) as (_ & Hstate).
    exact Hstate.
Defined.

(** * Further properties of the code *)

(** ** [clean_text] *)

Section Cleaning.
Import PyStr text_processor.

Lemma lstrip_app a b :
  lstrip (a ++ b) = match lstrip a with [] => lstrip b | _ :: _ => lstrip a ++ b end.
Proof.
  induction a as [ | x a IH ]; simpl; [ reflexivity | ].
  destruct (isspace x); [ exact IH | reflexivity ].
Qed.

Lemma rstrip_cons x s :
  rstrip (x :: s) =
    match rstrip s with
    | [] => if isspace x then [] else [x]
    | _ :: _ => x :: rstrip s
    end.
Proof.
  unfold rstrip. simpl rev. rewrite lstrip_app.
  destruct (lstrip (rev s)) as [ | y r ]; simpl.
  - destruct (isspace x); reflexivity.
  - rewrite rev_app_distr. simpl.
    destruct (rev r ++ [y]) eqn:E; [ destruct (rev r); discriminate E | reflexivity ].
Qed.

Lemma filter_lstrip s : filter visible (lstrip s) = filter visible s.
Proof.
  unfold visible. induction s as [ | x s IH ]; simpl; [ reflexivity | ].
  destruct (isspace x) eqn:Hx; simpl; [ exact IH | ].
  rewrite Hx. reflexivity.
Qed.

Lemma filter_rstrip s : filter visible (rstrip s) = filter visible s.
Proof.
  unfold visible. induction s as [ | x s IH ]; [ reflexivity | ].
  rewrite rstrip_cons. simpl.
  destruct (rstrip s) as [ | y r ] eqn:Hr.
  - simpl in IH. rewrite <- IH. destruct (isspace x) eqn:Hx; simpl; [ reflexivity | ].
    rewrite Hx. reflexivity.
  - simpl. simpl in IH. rewrite IH. reflexivity.
Qed.

Lemma filter_collapse b s : filter visible (collapse b s) = filter visible s.
Proof.
  unfold visible. revert b. induction s as [ | x s IH ]; intros b; simpl; [ reflexivity | ].
  destruct (isspace x) eqn:Hx; simpl.
  - destruct b; simpl; apply IH.
  - rewrite Hx. simpl. f_equal. apply IH.
Qed.

Lemma collapse_spaces b s c : In c (collapse b s) -> isspace c = true -> c = 32%N.
Proof.
  revert b. induction s as [ | x s IH ]; intros b Hin Hc; simpl in Hin; [ destruct Hin | ].
  destruct (isspace x) eqn:Hx.
  - destruct b; [ exact (IH _ Hin Hc) | ].
    destruct Hin as [ <- | Hin ]; [ reflexivity | exact (IH _ Hin Hc) ].
  - destruct Hin as [ <- | Hin ]; [ congruence | exact (IH _ Hin Hc) ].
Qed.

Lemma squeeze_no_newline s : ~ In 10%N s -> forall run, squeeze run s = squeezed run ++ s.
Proof.
  induction s as [ | x s IH ]; intros Hno run; simpl.
  - rewrite app_nil_r. reflexivity.
  - destruct (N.eqb_spec x 10) as [ -> | Hx ]; [ exfalso; apply Hno; left; reflexivity | ].
    rewrite IH; [ reflexivity | ]. intros Hin. apply Hno. right. exact Hin.
Qed.

Lemma collapse_no_newline b s : ~ In 10%N (collapse b s).
Proof. intros Hin. apply collapse_spaces in Hin; [ discriminate Hin | reflexivity ]. Qed.

Lemma newline_step_idle text : sub_newlines (sub_whitespace text) = sub_whitespace text.
Proof.
  unfold sub_newlines, sub_whitespace. rewrite squeeze_no_newline; [ reflexivity | ].
  apply collapse_no_newline.
Qed.

Lemma clean_text_eq text : clean_text text = strip (sub_whitespace text).
Proof. unfold clean_text. cbv zeta. rewrite newline_step_idle. reflexivity. Qed.

Lemma in_lstrip c s : In c (lstrip s) -> In c s.
Proof.
  induction s as [ | x s IH ]; simpl; [ trivial | ].
  destruct (isspace x); [ intros Hin; right; exact (IH Hin) | trivial ].
Qed.

Lemma in_strip c s : In c (strip s) -> In c s.
Proof.
  unfold strip, rstrip. intros Hin.
  apply in_rev, in_lstrip, in_rev, in_lstrip in Hin. exact Hin.
Qed.

Lemma single_spaced_weaken s : single_spaced true s = true -> single_spaced false s = true.
Proof.
  destruct s as [ | x s ]; simpl; [ reflexivity | ].
  destruct (isspace x); [ | trivial ].
  rewrite andb_false_r. discriminate.
Qed.

Lemma single_spaced_collapse b s : single_spaced b (collapse b s) = true.
Proof.
  revert b. induction s as [ | x s IH ]; intros b; simpl; [ reflexivity | ].
  destruct (isspace x) eqn:Hx.
  - destruct b.
    + apply IH.
    + simpl. rewrite IH. reflexivity.
  - simpl. rewrite Hx. apply IH.
Qed.

Lemma single_spaced_lstrip s :
  single_spaced false s = true -> single_spaced false (lstrip s) = true.
Proof.
  induction s as [ | x s IH ]; simpl; [ trivial | ].
  destruct (isspace x) eqn:Hx.
  - intros Hs. apply andb_prop in Hs. destruct Hs as [ _ Hs ].
    apply IH. apply single_spaced_weaken. exact Hs.
  - intros Hs. simpl. rewrite Hx. exact Hs.
Qed.

Lemma single_spaced_rstrip s : forall b,
  single_spaced b s = true -> single_spaced b (rstrip s) = true.
Proof.
  induction s as [ | x s IH ]; intros b Hs; [ reflexivity | ].
  rewrite rstrip_cons. simpl in Hs.
  destruct (isspace x) eqn:Hx.
  - apply andb_prop in Hs. destruct Hs as [ Hx32 Hs ]. specialize (IH _ Hs).
    destruct (rstrip s) as [ | y r ]; [ reflexivity | ].
    cbn [single_spaced]. rewrite Hx, Hx32. exact IH.
  - specialize (IH _ Hs).
    destruct (rstrip s) as [ | y r ]; cbn [single_spaced]; rewrite Hx; [ reflexivity | exact IH ].
Qed.

Lemma rstrip_idem s : rstrip (rstrip s) = rstrip s.
Proof.
  induction s as [ | x s IH ]; [ reflexivity | ].
  rewrite rstrip_cons. destruct (rstrip s) as [ | y r ] eqn:Hr.
  - destruct (isspace x) eqn:Hx; [ reflexivity | ].
    rewrite rstrip_cons. simpl. rewrite Hx. reflexivity.
  - rewrite rstrip_cons, IH. reflexivity.
Qed.

Lemma lstrip_idem s : lstrip (lstrip s) = lstrip s.
Proof.
  induction s as [ | x s IH ]; simpl; [ reflexivity | ].
  destruct (isspace x) eqn:Hx; [ exact IH | ]. simpl. rewrite Hx. reflexivity.
Qed.

Lemma lstrip_shorter s : (List.length (lstrip s) <= List.length s)%nat.
Proof.
  induction s as [ | y s IH ]; simpl; [ lia | ]. destruct (isspace y); simpl; lia.
Qed.

Lemma lstrip_rstrip s : lstrip s = s -> lstrip (rstrip s) = rstrip s.
Proof.
  destruct s as [ | x s ]; [ reflexivity | ].
  simpl. destruct (isspace x) eqn:Hx.
  - intros Heq. exfalso. pose proof (lstrip_shorter s) as Hlen.
    rewrite Heq in Hlen. simpl in Hlen. lia.
  - intros _. rewrite rstrip_cons.
    destruct (rstrip s); rewrite ?Hx; simpl; rewrite Hx; reflexivity.
Qed.

Lemma strip_idem s : strip (strip s) = strip s.
Proof.
  unfold strip. rewrite (lstrip_rstrip (lstrip s) (lstrip_idem s)). apply rstrip_idem.
Qed.

Lemma clean_text_normal text : tidy (clean_text text).
Proof.
  rewrite clean_text_eq. split.
  - unfold strip. apply single_spaced_rstrip, single_spaced_lstrip.
    apply single_spaced_collapse.
  - apply strip_idem.
Qed.

Lemma collapse_single_spaced s : forall b, single_spaced b s = true -> collapse b s = s.
Proof.
  induction s as [ | x s IH ]; intros b Hs; simpl in *; [ reflexivity | ].
  destruct (isspace x) eqn:Hx.
  - apply andb_prop in Hs. destruct Hs as [ Hx32 Hs ].
    apply andb_prop in Hx32. destruct Hx32 as [ Hx32 Hb ].
    apply N.eqb_eq in Hx32. destruct b; [ discriminate Hb | ].
    subst x. f_equal. apply IH. exact Hs.
  - f_equal. apply IH. exact Hs.
Qed.

Lemma clean_text_of_tidy s : tidy s -> clean_text s = s.
Proof.
  intros [ Hs Hstrip ]. rewrite clean_text_eq. unfold sub_whitespace.
  rewrite (collapse_single_spaced _ _ Hs). exact Hstrip.
Qed.

Lemma clean_text_visible text : filter visible (clean_text text) = filter visible text.
Proof.
  rewrite clean_text_eq. unfold strip, sub_whitespace.
  rewrite filter_rstrip, filter_lstrip. apply filter_collapse.
Qed.

Lemma no_visible_blank s : filter visible s = [] <-> forallb isspace s = true.
Proof.
  unfold visible. induction s as [ | x s IH ]; simpl; [ tauto | ].
  destruct (isspace x); simpl; [ exact IH | split; discriminate ].
Qed.

Lemma lstrip_blank s : forallb isspace s = true -> lstrip s = [].
Proof.
  induction s as [ | x s IH ]; simpl; [ reflexivity | ].
  destruct (isspace x); [ exact IH | discriminate ].
Qed.

(** X1.  Whatever the text, [clean_text] returns words separated by single
    plain spaces: every whitespace character of the result is U+0020, no two
    of them are adjacent, and none stands at either end. *)
Theorem clean_text_tidy text : tidy (clean_text text).
Proof. apply clean_text_normal. Qed.

(** X2.  [clean_text] is idempotent: cleaning a cleaned text changes
    nothing. *)
Theorem clean_text_idempotent text : clean_text (clean_text text) = clean_text text.
Proof. apply clean_text_of_tidy, clean_text_normal. Qed.

(** X3.  The second substitution of [clean_text], which is meant to keep
    paragraph breaks by reducing three or more newlines to two, never
    changes anything: the first substitution has already turned every
    newline into a space, and the text returned holds no newline at all. *)
Theorem paragraph_breaks_never_kept text :
  PyStr.sub_newlines (PyStr.sub_whitespace text) = PyStr.sub_whitespace text /\
  ~ In 10%N (clean_text text).
Proof.
  split; [ apply newline_step_idle | ].
  rewrite clean_text_eq. intros Hin. apply in_strip in Hin.
  exact (collapse_no_newline _ _ Hin).
Qed.

(** X4.  [clean_text] neither drops, adds nor reorders a character that is
    not whitespace. *)
Theorem clean_text_keeps_visible text :
  filter visible (clean_text text) = filter visible text.
Proof. apply clean_text_visible. Qed.

(** X5.  [clean_text] returns the empty string exactly for the texts made of
    whitespace only, the empty text among them. *)
Theorem clean_text_blank text :
  clean_text text = [] <-> forallb PyStr.isspace text = true.
Proof.
  rewrite <- no_visible_blank, <- clean_text_visible. split.
  - intros ->. reflexivity.
  - intros Hblank. apply no_visible_blank in Hblank.
    destruct (clean_text_normal text) as [ _ Hstrip ]. rewrite <- Hstrip.
    unfold strip. rewrite (lstrip_blank _ Hblank). reflexivity.
Qed.

End Cleaning.

(** ** Models offered and clients built *)

Section Clients.
Context {world : Externals}.
Import ai_engine.

Lemma str_eqb_eq a : forall b, str_eqb a b = true <-> a = b.
Proof.
  induction a as [ | x a IH ]; intros [ | y b ]; simpl; split; try discriminate; try reflexivity.
  - intros H. apply andb_prop in H. destruct H as [ Hx Hab ].
    apply N.eqb_eq in Hx. apply IH in Hab. congruence.
  - intros [= -> ->]. rewrite N.eqb_refl. apply IH. reflexivity.
Qed.

Lemma lookup_in name : forall table cfg,
  config.lookup name table = Some cfg -> In (name, cfg) table.
Proof.
  induction table as [ | [ k v ] table IH ]; intros cfg; simpl; [ discriminate | ].
  destruct (str_eqb k name) eqn:Hk.
  - intros [= ->]. apply str_eqb_eq in Hk. left. congruence.
  - intros Hl. right. apply IH. exact Hl.
Qed.

(** X6.  The select box of [main] and [get_llm] agree: a model name is
    offered exactly when [get_llm] builds a client for it, whichever keys
    are set. *)
Theorem offered_models_have_clients name :
  In name app.available_model_names <-> exists llm, get_llm (Some name) = Ok llm.
Proof.
  unfold app.available_model_names, get_llm.
  split.
  - intros Hin. apply in_flat_map in Hin. destruct Hin as ([ k cfg ] & Htable & Hname).
    simpl in Htable.
    destruct Htable as [ E | [ E | [ E | [ E | [ E | [] ] ] ] ] ]; injection E as <- <-;
      cbn [config.provider_of] in Hname;
      match type of Hname with
      | In _ (if ?c then _ else _) =>
          destruct c eqn:Hkey;
          [ destruct Hname as [ <- | [] ];
            cbv zeta; vm_compute config.lookup; cbv beta iota;
            cbn [config.provider_of config.model_name_of negb];
            eexists; reflexivity
          | destruct Hname ]
      end.
  - intros (llm & Hllm).
    destruct (config.lookup name config.AVAILABLE_MODELS) as [ cfg | ] eqn:Hlookup;
      [ | discriminate Hllm ].
    apply lookup_in in Hlookup. apply in_flat_map. exists (name, cfg).
    split; [ exact Hlookup | ].
    destruct (config.provider_of cfg).
    + destruct (truthy_str GEMINI_API_KEY); [ left; reflexivity | discriminate Hllm ].
    + destruct (truthy_str DEEPSEEK_API_KEY); [ left; reflexivity | discriminate Hllm ].
Qed.

End Clients.

(** ** What follows a failed call *)

Section Halting.
Context {world : Externals}.
Import ai_engine.

Lemma halts_app a b : failures a = [] -> halts b -> halts (a ++ b).
Proof.
  induction a as [ | ev a IH ]; intros Ha Hb; [ exact Hb | ].
  destruct ev as [ f | l p [ s | e ] | | | | ]; simpl in *; try (apply IH; assumption).
  discriminate Ha.
Qed.

Lemma halts_split evs : halts evs ->
  forall pre llm p e post, evs = pre ++ Invoke llm p (Raise e) :: post -> post = [].
Proof.
  induction evs as [ | ev evs IH ]; intros Hh pre llm p e post Heq.
  - destruct pre; discriminate Heq.
  - destruct pre as [ | ev' pre ]; simpl in Heq; injection Heq as -> Heq.
    + subst post. exact Hh.
    + subst evs. destruct ev' as [ f | l q [ s | e' ] | | | | ]; simpl in Hh;
        try exact (IH Hh _ _ _ _ _ eq_refl).
      destruct pre; discriminate Hh.
Qed.

Lemma strict_ret {A} (a : A) : strict (ret a).
Proof. intros h. split; [ exact I | reflexivity ]. Qed.

Lemma strict_lift {A} (r : result A) : strict (lift r).
Proof. intros h. split; [ exact I | reflexivity ]. Qed.

Lemma strict_enter f : strict (enter f).
Proof. intros h. split; [ exact I | reflexivity ]. Qed.

Lemma strict_invoke llm prompt : strict (invoke llm prompt).
Proof.
  intros h. unfold invoke. simpl. destruct (model_reply h llm prompt); split; simpl; auto.
  intros a Ha. discriminate Ha.
Qed.

Lemma strict_bind {A B} (m : M A) (k : A -> M B) :
  strict m -> (forall a, strict (k a)) -> strict (bind m k).
Proof.
  intros Hm Hk h. unfold bind. destruct (Hm h) as [ Hh Hok ].
  destruct (m h) as [ [ a | e ] e1 ]; simpl in *.
  - specialize (Hok a eq_refl). destruct (Hk a (h ++ e1)) as [ Hh2 Hok2 ].
    destruct (k a (h ++ e1)) as [ r e2 ]; simpl in *. split.
    + apply halts_app; assumption.
    + intros b ->. rewrite failures_app, Hok, (Hok2 b eq_refl). reflexivity.
  - split; [ exact Hh | intros a Ha; discriminate Ha ].
Qed.

Lemma halting_bind {A B} (m : M A) (k : A -> M B) :
  strict m -> (forall a, halting (k a)) -> halting (bind m k).
Proof.
  intros Hm Hk h. unfold bind. destruct (Hm h) as [ Hh Hok ].
  destruct (m h) as [ [ a | e ] e1 ]; simpl in *; [ | exact Hh ].
  specialize (Hok a eq_refl). specialize (Hk a (h ++ e1)).
  destruct (k a (h ++ e1)) as [ r e2 ]; simpl in *.
  apply halts_app; assumption.
Qed.

(** A handler that only returns leaves the trace of the body as it is. *)
Lemma halting_try_ret {A} (body : M A) (value : exn -> A) :
  halting body -> halting (try_except body (fun e => ret (value e))).
Proof.
  intros Hb h. unfold try_except, ret. specialize (Hb h).
  destruct (body h) as [ [ a | e ] e1 ]; simpl in *; [ exact Hb | ].
  rewrite app_nil_r. exact Hb.
Qed.

Lemma strict_halting {A} (m : M A) : strict m -> halting m.
Proof. intros Hm h. apply Hm. Qed.

Lemma strict_summarize_chunks llm chunks : forall acc, strict (summarize_chunks llm chunks acc).
Proof.
  induction chunks as [ | c chunks IH ]; intros acc; simpl.
  - apply strict_ret.
  - apply strict_bind; [ apply strict_invoke | intros s; apply IH ].
Qed.

Lemma halting_summarize_long_text text model_name :
  halting (summarize_long_text text model_name).
Proof.
  unfold summarize_long_text.
  apply halting_bind; [ apply strict_enter | intros _ ].
  apply halting_try_ret. apply strict_halting.
  apply strict_bind; [ apply strict_lift | intros llm ].
  apply strict_bind; [ apply strict_enter | intros _ ].
  apply strict_bind; [ apply strict_lift | intros chunks ].
  apply strict_bind; [ apply strict_summarize_chunks | intros sums ].
  cbv zeta.
  apply strict_bind; [ apply strict_invoke | intros final ].
  apply strict_ret.
Qed.

Lemma halting_summarize_text text model_name : halting (summarize_text text model_name).
Proof.
  unfold summarize_text.
  apply halting_bind; [ apply strict_enter | intros _ ].
  apply halting_try_ret.
  apply halting_bind; [ apply strict_lift | intros llm ].
  destruct (len text >? 30000); [ apply halting_summarize_long_text | ].
  apply strict_halting.
  apply strict_bind; [ apply strict_invoke | intros r; apply strict_ret ].
Qed.

Lemma halting_generate_quiz summary n model_name : halting (generate_quiz summary n model_name).
Proof.
  unfold generate_quiz.
  apply halting_bind; [ apply strict_enter | intros _ ].
  cbv zeta. apply halting_try_ret. apply strict_halting.
  apply strict_bind; [ apply strict_lift | intros llm ].
  apply strict_bind; [ apply strict_invoke | intros r ].
  destruct (json.truthy (parse_quiz_response r)); apply strict_ret.
Qed.

(** X7.  A model call that raises is the last thing a run of
    [summarize_text], [summarize_long_text] or [generate_quiz] does: no
    call, no chunking and no other recorded step follows it, whatever the
    models answer and wherever in the run the failure falls. *)
Theorem nothing_after_a_failed_call text model_name summary n h pre llm p e post :
  snd (summarize_text text model_name h) = pre ++ Invoke llm p (Raise e) :: post \/
  snd (summarize_long_text text model_name h) = pre ++ Invoke llm p (Raise e) :: post \/
  snd (generate_quiz summary n model_name h) = pre ++ Invoke llm p (Raise e) :: post ->
  post = [].
Proof.
  intros [ Heq | [ Heq | Heq ] ]; refine (halts_split _ _ _ _ _ _ _ Heq).
  - apply halting_summarize_text.
  - apply halting_summarize_long_text.
  - apply halting_generate_quiz.
Qed.
End Halting.

Lemma nothing_after_a_failed_call_witness :
  snd (ai_engine.summarize_text (world := Demo.failing_after 0) (Demo.letters 500) None [])
    = [Enter F_summarize_text]
      ++ Invoke Demo.gemini_pro (ai_engine.SUMMARY_PROMPT (Demo.letters 500))
           (Raise (Raised (lit "429 quota exceeded"))) :: [] /\
  @nil event = [].
Proof.
  assert (Hrun :
    snd (ai_engine.summarize_text (world := Demo.failing_after 0) (Demo.letters 500) None [])
      = [Enter F_summarize_text]
        ++ Invoke Demo.gemini_pro (ai_engine.SUMMARY_PROMPT (Demo.letters 500))
             (Raise (Raised (lit "429 quota exceeded"))) :: [])
    by (vm_compute; reflexivity).
  split; [ exact Hrun | ].
  exact (nothing_after_a_failed_call (world := Demo.failing_after 0)
           (Demo.letters 500) None [] None [] _ _ _ _ [] (or_introl Hrun)).
Defined.


(** ** The entry points of [ai_engine] *)

Section Engine.
Context {world : Externals}.
Import ai_engine.

(** X8.  When no client can be built for the model (unknown name, or the
    key of its provider unset), each of the three entry points returns its
    failure dictionary with the text of that error, and no model is called
    and no text is chunked. *)
Theorem no_client_no_call text summary num_questions model_name h e :
  get_llm model_name = Raise e ->
  summarize_text text model_name h
    = (Ok (failed short_label e), [Enter F_summarize_text]) /\
  summarize_long_text text model_name h
    = (Ok (failed long_label e), [Enter F_summarize_long_text]) /\
  generate_quiz summary num_questions model_name h
    = (Ok (quiz_failed e), [Enter F_generate_quiz]).
Proof.
  intros Hllm. split; [ | split ].
  - apply summarize_text_no_llm. exact Hllm.
  - unfold summarize_long_text, try_except, bind, enter, emit, lift, ret.
    rewrite Hllm. reflexivity.
  - apply generate_quiz_no_llm. exact Hllm.
Qed.

(** X9.  On the long path the splitter is always consulted:
    [summarize_text] enters [summarize_long_text] only for texts above
    30000 characters, which are above the chunk size of 8000, so the guard
    of [chunk_text] that returns the text whole never applies there; and an
    exception of the splitter is reported under the label of the long
    summariser, with no model called. *)
Theorem long_path_always_splits text model_name h :
  30000 < len text ->
  text_processor.chunk_text text (Some 8000) (Some 500)
    = split_text 8000 500 text_processor.separators text /\
  forall llm e,
    get_llm model_name = Ok llm ->
    split_text 8000 500 text_processor.separators text = Raise e ->
    summarize_text text model_name h
      = (Ok (failed long_label e),
         [Enter F_summarize_text; Enter F_summarize_long_text; Enter F_chunk_text]).
Proof.
  intros Hlong.
  assert (Hsplit : text_processor.chunk_text text (Some 8000) (Some 500)
                   = split_text 8000 500 text_processor.separators text).
  { apply (chunk_text_long text (Some 8000) (Some 500)). simpl. lia. }
  split; [ exact Hsplit | ].
  intros llm e Hllm Hraise.
  rewrite (summarize_text_long _ _ _ _ Hllm Hlong).
  destruct (summarize_long_text_cases text model_name (h ++ [Enter F_summarize_text]))
    as [ (e' & Hno & _) | [ (llm' & e' & _ & Hchunks & Hrun)
       | [ (llm' & chunks' & e' & evs & _ & Hchunks & _)
       | (llm' & chunks' & partials & final & _ & Hchunks & _) ] ] ];
    try congruence.
  rewrite Hrun. cbn [fst snd].
  assert (e' = e) as -> by congruence. reflexivity.
Qed.

(** X10.  [generate_quiz] calls the model at most once and never asks
    again, whatever the reply: once with the quiz prompt around the summary
    and the number of questions (five when none is given) if a client can
    be built, not at all otherwise. *)
Theorem generate_quiz_calls_once summary num_questions model_name h :
  invocations (snd (generate_quiz summary num_questions model_name h)) =
    match get_llm model_name with
    | Ok _ => [QUIZ_PROMPT summary
                 (text_processor.opt_default num_questions config.DEFAULT_NUM_QUESTIONS)]
    | Raise _ => []
    end.
Proof.
  destruct (get_llm model_name) as [ llm | e ] eqn:Hllm.
  - rewrite (generate_quiz_run _ _ _ _ _ Hllm). reflexivity.
  - rewrite (generate_quiz_no_llm _ _ _ _ _ Hllm). reflexivity.
Qed.

(** X11.  [generate_quiz] always returns, and its result is of one of two
    shapes: success with a truthy quiz and no error, or failure with the
    empty list as quiz and an error message. *)
Theorem generate_quiz_result_shape summary num_questions model_name h :
  exists r,
    fst (generate_quiz summary num_questions model_name h) = Ok r /\
    (quiz_success r = true -> quiz_error r = None /\ json.truthy (quiz r) = true) /\
    (quiz_success r = false -> quiz r = json.VList [] /\ quiz_error r <> None).
Proof.
  destruct (get_llm model_name) as [ llm | e ] eqn:Hllm.
  - rewrite (generate_quiz_run _ _ _ _ _ Hllm). cbn [fst]. eexists. split; [ reflexivity | ].
    destruct (model_reply _ llm _) as [ response | e ]; cbn [quiz_outcome].
    + destruct (json.truthy (parse_quiz_response response)) eqn:Htruthy; cbn; split;
        try discriminate; intros _; split; try reflexivity; try discriminate.
      exact Htruthy.
    + cbn. split; [ discriminate | intros _; split; [ reflexivity | discriminate ] ].
  - rewrite (generate_quiz_no_llm _ _ _ _ _ Hllm). cbn [fst]. eexists. split; [ reflexivity | ].
    cbn. split; [ discriminate | intros _; split; [ reflexivity | discriminate ] ].
Qed.

(** X12.  A reply that does not decode as a whole but holds a bracketed
    array between text without brackets (a preamble without an opening
    bracket, a tail without a closing one) is parsed as that array. *)
Theorem embedded_array_recovered pre mid post v :
  ~ In 91%N pre -> ~ In 93%N post ->
  json.loads (pre ++ 91%N :: mid ++ 93%N :: post) = None ->
  json.loads (91%N :: mid ++ [93%N]) = Some v ->
  parse_quiz_response (pre ++ 91%N :: mid ++ 93%N :: post) = v.
Proof.
  intros Hpre Hpost Hwhole Hgroup.
  assert (Hspan : re.search_bracketed (pre ++ 91%N :: mid ++ 93%N :: post)
                  = Some (91%N :: mid ++ [93%N])).
  { apply search_bracketed_spec. exists pre, mid, post. auto. }
  unfold parse_quiz_response. rewrite Hwhole, Hspan, Hgroup. reflexivity.
Qed.

(** X13.  Called directly on a text no longer than a chunk,
    [summarize_long_text] still runs both stages: it summarises the whole
    text as the only chunk and then asks for the combination of that single
    partial summary, two calls where [summarize_text] makes one. *)
Theorem single_chunk_two_calls text model_name llm h :
  len text <= 8000 ->
  get_llm model_name = Ok llm ->
  failures (snd (summarize_long_text text model_name h)) = [] ->
  exists partial final,
    summarize_long_text text model_name h =
      (Ok (reduced final 1),
       [Enter F_summarize_long_text; Enter F_chunk_text;
        Invoke llm (CHUNK_SUMMARY_PROMPT text) (Ok partial);
        Invoke llm (COMBINE_SUMMARY_PROMPT partial) (Ok final)]).
Proof.
  intros Hshort Hllm Hquiet.
  pose proof (chunk_text_fits text (Some 8000) (Some 500) Hshort) as Hchunks.
  destruct (summarize_long_text_cases text model_name h)
    as [ (e & Hno & _) | [ (llm' & e & _ & Hno & _)
       | [ (llm' & chunks' & e & evs & _ & _ & Hfail & Hrun)
       | (llm' & chunks' & partials & final & Hllm' & Hchunks' & Hlen & Hrun) ] ] ];
    try congruence.
  - rewrite Hrun in Hquiet. cbn [snd failures] in Hquiet. congruence.
  - assert (llm' = llm) as -> by congruence.
    rewrite Hchunks in Hchunks'. injection Hchunks' as <-.
    destruct partials as [ | partial [ | ? ? ] ]; try discriminate Hlen.
    exists partial, final. rewrite Hrun. reflexivity.
Qed.

(** X14.  In the units of [estimate_tokens] (four characters a token), the
    long path is taken above 7500 estimated tokens and the single call
    below. *)
Theorem threshold_in_tokens text model_name llm h :
  get_llm model_name = Ok llm ->
  (7500 < text_processor.estimate_tokens text ->
     In (Enter F_summarize_long_text) (snd (summarize_text text model_name h))) /\
  (text_processor.estimate_tokens text < 7500 ->
     ~ In (Enter F_summarize_long_text) (snd (summarize_text text model_name h)) /\
     List.length (invocations (snd (summarize_text text model_name h))) = 1%nat).
Proof.
  intros Hllm. unfold text_processor.estimate_tokens. split.
  - intros Hest. assert (Hlong : 30000 < len text) by (Z.div_mod_to_equations; lia).
    rewrite (summarize_text_long _ _ _ _ Hllm Hlong). cbn [snd].
    destruct (summarize_long_text_returns text model_name (h ++ [Enter F_summarize_text]))
      as (r & evs & Hrun).
    rewrite Hrun. right. left. reflexivity.
  - intros Hest. assert (Hshort : len text <= 30000) by (Z.div_mod_to_equations; lia).
    rewrite (summarize_text_single _ _ _ _ Hllm Hshort). cbn [snd]. split; [ | reflexivity ].
    intros [ Hin | [ Hin | [] ] ]; discriminate Hin.
Qed.
End Engine.

Lemma no_client_no_call_witness :
  ai_engine.get_llm (world := Samples.keyless) None
    = Raise (Raised (lit "GEMINI_API_KEY not found. Please set it in your .env file.")) /\
  ai_engine.summarize_text (world := Samples.keyless) (lit "notes") None []
    = (Ok (failed short_label
             (Raised (lit "GEMINI_API_KEY not found. Please set it in your .env file."))),
       [Enter F_summarize_text]).
Proof.
  split; [ reflexivity | ].
  exact (proj1 (no_client_no_call (world := Samples.keyless)
                  (lit "notes") (lit "notes") None None [] _ eq_refl)).
Defined.

Lemma long_path_always_splits_witness :
  30000 < len (Demo.letters 30001) /\
  ai_engine.summarize_text (world := Samples.unsplittable) (Demo.letters 30001) None []
    = (Ok (failed long_label (Raised (lit "splitter failed"))),
       [Enter F_summarize_text; Enter F_summarize_long_text; Enter F_chunk_text]).
Proof.
  assert (Hlong : 30000 < len (Demo.letters 30001)) by (vm_compute; reflexivity).
  split; [ exact Hlong | ].
  exact (proj2 (long_path_always_splits (world := Samples.unsplittable)
                  (Demo.letters 30001) None [] Hlong)
           Demo.gemini_pro _ eq_refl eq_refl).
Defined.

Lemma embedded_array_recovered_witness :
  ai_engine.parse_quiz_response (lit "Here: [1, 2] done")
    = json.VList [json.VInt 1; json.VInt 2].
Proof.
  apply (embedded_array_recovered (lit "Here: ") (lit "1, 2") (lit " done")).
  - vm_compute. intuition discriminate.
  - vm_compute. intuition discriminate.
  - vm_compute. reflexivity.
  - vm_compute. reflexivity.
Defined.

Lemma single_chunk_two_calls_witness :
  exists partial final,
    ai_engine.summarize_long_text (world := Demo.steady) (Demo.letters 500) None [] =
      (Ok (reduced final 1),
       [Enter F_summarize_long_text; Enter F_chunk_text;
        Invoke Demo.gemini_pro (ai_engine.CHUNK_SUMMARY_PROMPT (Demo.letters 500)) (Ok partial);
        Invoke Demo.gemini_pro (ai_engine.COMBINE_SUMMARY_PROMPT partial) (Ok final)]).
Proof.
  apply (single_chunk_two_calls (world := Demo.steady) (Demo.letters 500) None
           Demo.gemini_pro []).
  - vm_compute. discriminate.
  - reflexivity.
  - vm_compute. reflexivity.
Defined.

Lemma threshold_in_tokens_witness :
  text_processor.estimate_tokens (Demo.letters 500) < 7500 /\
  List.length
    (invocations
       (snd (ai_engine.summarize_text (world := Demo.steady) (Demo.letters 500) None [])))
    = 1%nat.
Proof.
  assert (Hfew : text_processor.estimate_tokens (Demo.letters 500) < 7500)
    by (vm_compute; reflexivity).
  split; [ exact Hfew | ].
  exact (proj2 (proj2 (threshold_in_tokens (world := Demo.steady) (Demo.letters 500) None
                         Demo.gemini_pro [] eq_refl) Hfew)).
Defined.


Section Flow.
Context {world : Externals}.
Import app.

(** X15.  When the extraction fails, [process_content] shows the error of
    the extractor (or the fallback of the source when there is none) and
    stops: the session is left cleared, no model is called and the page is
    not rerun. *)
Theorem extraction_failure_blocks input num_questions model_name st h :
  ex_success (fst (fst (extract input))) = false ->
  process_content input num_questions model_name st h =
    (Ok cleared,
     [StError (cross_mark ++
               get_default (ex_error (fst (fst (extract input)))) (snd (fst (extract input))))]).
Proof.
  intros Hfail. unfold process_content.
  destruct (extract input) as [ [ result fallback ] info ]. cbn [fst snd] in *.
  rewrite Hfail. reflexivity.
Qed.

(** X16.  When the summary succeeds, the model calls of [process_content]
    are those of the summary followed by exactly one more, the quiz prompt
    built around the summary just returned (not around the extracted text)
    with the number of questions chosen. *)
Theorem quiz_asked_about_the_summary input num_questions model_name st h llm sr :
  ex_success (fst (fst (extract input))) = true ->
  ai_engine.get_llm model_name = Ok llm ->
  fst (ai_engine.summarize_text (ex_text (fst (fst (extract input)))) model_name
         (h ++ [extracted_msg])) = Ok sr ->
  ai_engine.success sr = true ->
  invocations (snd (process_content input num_questions model_name st h)) =
    invocations (snd (ai_engine.summarize_text (ex_text (fst (fst (extract input))))
                        model_name (h ++ [extracted_msg])))
    ++ [ai_engine.QUIZ_PROMPT (ai_engine.summary sr) num_questions].
Proof.
  intros Hex Hllm Hsum Hok.
  apply run_pair in Hsum.
  set (evs1 := snd (ai_engine.summarize_text (ex_text (fst (fst (extract input))))
                      model_name (h ++ [extracted_msg]))) in *.
  unfold process_content.
  destruct (extract input) as [ [ result fallback ] info ]. cbn [fst] in *.
  rewrite Hex. cbn [negb].
  rewrite (bind_ok (emit extracted_msg) _ h tt [extracted_msg] eq_refl).
  rewrite (bind_ok _ _ _ sr evs1 Hsum). rewrite Hok.
  rewrite (bind_ok (emit summary_msg) _ _ tt [summary_msg] eq_refl).
  rewrite (bind_ok _ _ _ _ _ (generate_quiz_run _ _ _ _ _ Hllm)).
  cbn [fst snd]. rewrite !invocations_app. cbn [invocations app].
  match goal with |- context [ai_engine.quiz_success ?q] =>
    destruct (ai_engine.quiz_success q) end;
    unfold bind, emit, ret; cbn [fst snd app invocations]; rewrite ?app_nil_r; reflexivity.
Qed.

Lemma short_text_first_call input num_questions model_name st h llm :
  ex_success (fst (fst (extract input))) = true ->
  len (ex_text (fst (fst (extract input)))) <= 30000 ->
  ai_engine.get_llm model_name = Ok llm ->
  exists rest,
    invocations (snd (process_content input num_questions model_name st h))
      = ai_engine.SUMMARY_PROMPT (ex_text (fst (fst (extract input)))) :: rest.
Proof.
  intros Hex Hshort Hllm.
  unfold process_content.
  destruct (extract input) as [ [ result fallback ] info ]. cbn [fst] in *.
  rewrite Hex. cbn [negb].
  rewrite (bind_ok (emit extracted_msg) _ h tt [extracted_msg] eq_refl).
  rewrite (bind_ok _ _ _ _ _ (summarize_text_single _ model_name _ llm Hllm Hshort)).
  cbn [fst snd app invocations]. eexists. reflexivity.
Qed.

(** X17.  [process_content] does not look at the extracted text before
    summarising: an extraction that succeeds with an empty text leads to a
    model call with the summary prompt around the empty string. *)
Theorem empty_text_is_still_summarised input num_questions model_name st h llm :
  ex_success (fst (fst (extract input))) = true ->
  ex_text (fst (fst (extract input))) = [] ->
  ai_engine.get_llm model_name = Ok llm ->
  exists rest,
    invocations (snd (process_content input num_questions model_name st h))
      = ai_engine.SUMMARY_PROMPT [] :: rest.
Proof.
  intros Hex Hempty Hllm.
  destruct (short_text_first_call input num_questions model_name st h llm Hex)
    as (rest & Hcalls); [ rewrite Hempty; cbn; lia | exact Hllm | ].
  exists rest. rewrite Hcalls, Hempty. reflexivity.
Qed.

End Flow.

Lemma extraction_failure_blocks_witness :
  app.process_content (world := Samples.offline) (app.youtube (lit "https://youtu.be/x"))
    5 None app.cleared []
  = (Ok app.cleared, [StError (app.cross_mark ++ lit "unavailable")]).
Proof.
  exact (extraction_failure_blocks (world := Samples.offline)
           (app.youtube (lit "https://youtu.be/x")) 5 None app.cleared [] eq_refl).
Defined.

Lemma quiz_asked_about_the_summary_witness :
  invocations
    (snd (app.process_content (world := Demo.steady) (app.youtube (lit "https://youtu.be/x"))
            5 None app.cleared []))
  = [ai_engine.SUMMARY_PROMPT (lit "Today we sort lists by merging.");
     ai_engine.QUIZ_PROMPT (lit "S1") 5].
Proof.
  assert (Hsum :
    fst (ai_engine.summarize_text (world := Demo.steady)
           (ex_text (fst (fst (app.extract (world := Demo.steady)
                                 (app.youtube (lit "https://youtu.be/x"))))))
           None ([] ++ [extracted_msg]))
      = Ok (single_shot (Ok (lit "S1"))))
    by (vm_compute; reflexivity).
  rewrite (quiz_asked_about_the_summary (world := Demo.steady)
             (app.youtube (lit "https://youtu.be/x")) 5 None app.cleared []
             Demo.gemini_pro _ eq_refl eq_refl Hsum eq_refl).
  vm_compute. reflexivity.
Defined.

Lemma empty_text_is_still_summarised_witness :
  exists rest,
    invocations
      (snd (app.process_content (world := wired (Samples.reading [lit "  "]) Demo.steady)
              (app.document Samples.scan) 5 None app.cleared []))
    = ai_engine.SUMMARY_PROMPT [] :: rest.
Proof.
  exact (empty_text_is_still_summarised
           (world := wired (Samples.reading [lit "  "]) Demo.steady)
           (app.document Samples.scan) 5 None app.cleared [] Demo.gemini_pro
           eq_refl eq_refl eq_refl).
Defined.


(** ** Video identifiers *)

Section VideoIds.
Context {libs : Libraries}.
Import youtube_extractor.
#[local] Opaque firstn skipn.

Lemma after_prefix_some p : forall s rest,
  json.after_prefix p s = Some rest <-> s = p ++ rest.
Proof.
  induction p as [ | a p IH ]; intros s rest; simpl.
  - split; [ intros [= ->]; reflexivity | intros ->; reflexivity ].
  - destruct s as [ | b s ]; [ split; discriminate | ].
    destruct (N.eqb_spec a b) as [ <- | Hab ].
    + rewrite IH. split; [ intros ->; reflexivity | intros [= ->]; reflexivity ].
    + split; [ discriminate | intros [= -> _]; congruence ].
Qed.

Lemma take_id_some s id :
  take_id s = Some id ->
  List.length id = 11%nat /\ forallb is_id_char id = true /\ s = id ++ skipn 11 s.
Proof.
  unfold take_id. destruct (Nat.eqb_spec (List.length (firstn 11 s)) 11) as [ Hlen | ];
    [ | discriminate ].
  destruct (forallb is_id_char (firstn 11 s)) eqn:Hall; [ | discriminate ].
  intros [= <-].
  split; [ exact Hlen | split; [ exact Hall | exact (eq_sym (firstn_skipn 11 s)) ] ].
Qed.

Lemma take_id_app id rest :
  List.length id = 11%nat -> forallb is_id_char id = true -> take_id (id ++ rest) = Some id.
Proof.
  intros Hlen Hall. unfold take_id.
  assert (Hfirst : firstn 11 (id ++ rest) = id).
  { rewrite <- Hlen. rewrite firstn_app, Nat.sub_diag, firstn_all. simpl.
    apply app_nil_r. }
  rewrite Hfirst, Hlen, Hall. reflexivity.
Qed.

Lemma match_marked_some ms : forall s id,
  match_marked ms s = Some id ->
  exists m rest, In m ms /\ s = m ++ rest /\ take_id rest = Some id.
Proof.
  induction ms as [ | m ms IH ]; intros s id; simpl; [ discriminate | ].
  destruct (json.after_prefix m s) as [ rest | ] eqn:Hm.
  - destruct (take_id rest) as [ id' | ] eqn:Hid.
    + intros [= <-]. apply after_prefix_some in Hm. exists m, rest. auto.
    + intros H. destruct (IH _ _ H) as (m' & rest' & Hin & Hs & Ht). exists m', rest'. auto.
  - intros H. destruct (IH _ _ H) as (m' & rest' & Hin & Hs & Ht). exists m', rest'. auto.
Qed.

Lemma search_marked_some : forall s id,
  search_marked s = Some id ->
  exists pre m rest, In m markers /\ s = pre ++ m ++ rest /\ take_id rest = Some id.
Proof.
  induction s as [ | x s IH ]; intros id Hs.
  - cbn [search_marked] in Hs.
    destruct (match_marked markers []) as [ id' | ] eqn:Hm; [ | discriminate Hs ].
    injection Hs as ->. apply match_marked_some in Hm.
    destruct Hm as (m & rest & Hin & Heq & Ht). exists [], m, rest. auto.
  - cbn [search_marked] in Hs.
    destruct (match_marked markers (x :: s)) as [ id' | ] eqn:Hm.
    + injection Hs as ->. apply match_marked_some in Hm.
      destruct Hm as (m & rest & Hin & Heq & Ht). exists [], m, rest. auto.
    + destruct (IH _ Hs) as (pre & m & rest & Hin & Heq & Ht).
      exists (x :: pre), m, rest. subst s. auto.
Qed.

Lemma search_bare_some s id : search_bare s = Some id -> take_id s = Some id.
Proof.
  unfold search_bare. destruct (take_id s) as [ id' | ]; [ | discriminate ].
  intros Hb.
  repeat match type of Hb with
         | context [match ?x with _ => _ end] => destruct x
         end; try discriminate Hb; exact Hb.
Qed.

Lemma extracted_id_shape url id :
  extract_video_id url = Some id ->
  List.length id = 11%nat /\ forallb is_id_char id = true /\
  exists pre post, url = pre ++ id ++ post.
Proof.
  unfold extract_video_id.
  destruct (search_marked url) as [ id' | ] eqn:Hs.
  - intros [= ->]. apply search_marked_some in Hs.
    destruct Hs as (pre & m & rest & _ & -> & Ht).
    apply take_id_some in Ht. destruct Ht as (Hlen & Hall & Hrest).
    split; [ exact Hlen | split; [ exact Hall | ] ].
    exists (pre ++ m), (skipn 11 rest). rewrite <- app_assoc. congruence.
  - intros Hb. apply search_bare_some in Hb.
    apply take_id_some in Hb. destruct Hb as (Hlen & Hall & Hrest).
    split; [ exact Hlen | split; [ exact Hall | ] ].
    exists [], (skipn 11 url). exact Hrest.
Qed.

(** X18.  Whenever [extract_video_id] finds an identifier, it is a piece of
    the given string, exactly eleven characters long, made of letters,
    digits, underscores and hyphens only; and it is the identifier
    [get_transcript_from_url] asks the transcript of, with the default
    languages. *)
Theorem video_id_shape url id :
  extract_video_id url = Some id ->
  List.length id = 11%nat /\ forallb is_id_char id = true /\
  (exists pre post, url = pre ++ id ++ post) /\
  get_transcript_from_url url = get_transcript id None.
Proof.
  intros Hid. destruct (extracted_id_shape _ _ Hid) as (Hlen & Hall & Hin).
  split; [ exact Hlen | split; [ exact Hall | split; [ exact Hin | ] ] ].
  unfold get_transcript_from_url. rewrite Hid.
  destruct id; [ discriminate Hlen | reflexivity ].
Qed.

Lemma bare_tail_rejected (l id : str) :
  l <> [] -> l <> [10%N] ->
  match l with
  | [] => Some id
  | [10%N] => Some id
  | _ => None
  end = None.
Proof.
  intros Hnil Hnl.
  repeat match goal with
         | |- context [match ?x with _ => _ end] => destruct x
         end; try reflexivity;
    solve [ exfalso; apply Hnl; reflexivity | exfalso; apply Hnil; reflexivity ].
Qed.

Lemma is_id_char_no_dot s : forallb is_id_char s = true -> ~ In 46%N s.
Proof.
  intros Hall Hin. rewrite forallb_forall in Hall. specialize (Hall _ Hin). discriminate Hall.
Qed.

Lemma match_marked_none_without_dot s : ~ In 46%N s -> match_marked markers s = None.
Proof.
  intros Hno. destruct (match_marked markers s) as [ id | ] eqn:Hm; [ | reflexivity ].
  exfalso. apply match_marked_some in Hm. destruct Hm as (m & rest & Hin & -> & _).
  apply Hno. apply in_or_app. left.
  destruct Hin as [ <- | [ <- | [ <- | [] ] ] ]; vm_compute; tauto.
Qed.

Lemma search_marked_none_without_dot s : ~ In 46%N s -> search_marked s = None.
Proof.
  induction s as [ | x s IH ]; intros Hno; cbn [search_marked];
    rewrite (match_marked_none_without_dot _ Hno); [ reflexivity | ].
  apply IH. intros Hin. apply Hno. right. exact Hin.
Qed.

(** X19.  A string of letters, digits, underscores and hyphens only is taken
    as a video identifier exactly when it has eleven characters; of any
    other length it is refused as an invalid URL, without any request for
    a transcript. *)
Theorem id_characters_only s :
  forallb is_id_char s = true ->
  extract_video_id s = (if (List.length s =? 11)%nat then Some s else None) /\
  (List.length s <> 11%nat -> get_transcript_from_url s = invalid_url).
Proof.
  intros Hall.
  assert (Hid : extract_video_id s = (if (List.length s =? 11)%nat then Some s else None)).
  { unfold extract_video_id.
    rewrite (search_marked_none_without_dot _ (is_id_char_no_dot _ Hall)).
    unfold search_bare, take_id.
    destruct (Nat.eqb_spec (List.length s) 11) as [ Hlen | Hlen ].
    - rewrite firstn_all2 by lia. rewrite Hlen, Hall. cbn [Nat.eqb andb].
      rewrite skipn_all2 by lia. reflexivity.
    - destruct (Nat.eqb_spec (List.length (firstn 11 s)) 11) as [ Hf | Hf ];
        [ | reflexivity ].
      cbn [andb]. destruct (forallb is_id_char (firstn 11 s)); [ | reflexivity ].
      rewrite length_firstn in Hf.
      assert (Hlong : (11 < List.length s)%nat) by lia.
      apply bare_tail_rejected.
      + intros Hskip. apply (f_equal (@List.length _)) in Hskip.
        rewrite length_skipn in Hskip. simpl in Hskip. lia.
      + intros Hskip.
        assert (Hc : is_id_char 10%N = true).
        { rewrite forallb_forall in Hall. apply Hall.
          rewrite <- (firstn_skipn 11 s), Hskip. apply in_or_app. right. left. reflexivity. }
        discriminate Hc. }
  split; [ exact Hid | ].
  intros Hlen. unfold get_transcript_from_url. rewrite Hid.
  destruct (Nat.eqb_spec (List.length s) 11); [ contradiction | reflexivity ].
Qed.
Lemma markers_start_with_y m : In m markers -> exists m', m = 121%N :: m'.
Proof. intros [ <- | [ <- | [ <- | [] ] ] ]; eexists; reflexivity. Qed.

Lemma search_marked_skip x s : x <> 121%N -> search_marked (x :: s) = search_marked s.
Proof.
  intros Hx. cbn [search_marked].
  destruct (match_marked markers (x :: s)) as [ id | ] eqn:Hm; [ | reflexivity ].
  exfalso. apply match_marked_some in Hm. destruct Hm as (m & rest & Hin & Heq & _).
  destruct (markers_start_with_y _ Hin) as (m' & ->). injection Heq as -> _.
  apply Hx. reflexivity.
Qed.

Lemma search_marked_skip_all pre s : ~ In 121%N pre -> search_marked (pre ++ s) = search_marked s.
Proof.
  induction pre as [ | x pre IH ]; intros Hno; [ reflexivity | ].
  simpl app. rewrite search_marked_skip.
  - apply IH. intros Hin. apply Hno. right. exact Hin.
  - intros ->. apply Hno. left. reflexivity.
Qed.

Lemma match_at_marker m tail id :
  In m markers -> take_id tail = Some id -> match_marked markers (m ++ tail) = Some id.
Proof.
  intros Hin Hid.
  destruct Hin as [ <- | [ <- | [ <- | [] ] ] ]; cbn -[take_id]; rewrite Hid; reflexivity.
Qed.

(** X20.  The three URL forms of the docstring are recognised wherever they
    stand: after any text without the letter y (a scheme, www.), one of
    the three markers followed by eleven identifier characters yields those
    eleven characters, whatever follows them (a query, a longer run of
    identifier characters, anything). *)
Theorem marked_url_recognised pre m id rest :
  ~ In 121%N pre -> In m markers ->
  List.length id = 11%nat -> forallb is_id_char id = true ->
  extract_video_id (pre ++ m ++ id ++ rest) = Some id.
Proof.
  intros Hpre Hm Hlen Hall. unfold extract_video_id.
  rewrite (search_marked_skip_all _ _ Hpre).
  assert (Hhere : match_marked markers (m ++ id ++ rest) = Some id)
    by (apply match_at_marker; [ exact Hm | apply take_id_app; assumption ]).
  destruct (m ++ id ++ rest) as [ | x s ]; cbn [search_marked]; rewrite Hhere; reflexivity.
Qed.
(** X21.  The second pattern ends in a dollar sign, which also matches
    before a final line feed: a bare identifier followed by one line feed
    is accepted, and the identifier returned is without it. *)
Theorem bare_id_with_line_feed id :
  List.length id = 11%nat -> forallb is_id_char id = true ->
  extract_video_id (id ++ [10%N]) = Some id.
Proof.
  intros Hlen Hall. unfold extract_video_id.
  rewrite search_marked_none_without_dot.
  - unfold search_bare. rewrite (take_id_app id [10%N] Hlen Hall).
    rewrite <- Hlen, skipn_app, Nat.sub_diag, skipn_all. reflexivity.
  - intros Hin. apply in_app_or in Hin. destruct Hin as [ Hin | [ Hin | [] ] ].
    + exact (is_id_char_no_dot _ Hall Hin).
    + discriminate Hin.
Qed.

End VideoIds.

Lemma video_id_shape_witness :
  youtube_extractor.extract_video_id (lit "https://youtu.be/dQw4w9WgXcQ?t=1")
    = Some (lit "dQw4w9WgXcQ") /\
  List.length (lit "dQw4w9WgXcQ") = 11%nat /\
  youtube_extractor.get_transcript_from_url (libs := Samples.reading [])
    (lit "https://youtu.be/dQw4w9WgXcQ?t=1")
  = youtube_extractor.get_transcript (libs := Samples.reading []) (lit "dQw4w9WgXcQ") None.
Proof.
  assert (Hid : youtube_extractor.extract_video_id (lit "https://youtu.be/dQw4w9WgXcQ?t=1")
                = Some (lit "dQw4w9WgXcQ")) by (vm_compute; reflexivity).
  destruct (video_id_shape (libs := Samples.reading []) _ _ Hid) as (Hlen & _ & _ & Hget).
  split; [ exact Hid | split; [ exact Hlen | exact Hget ] ].
Defined.

Lemma id_characters_only_witness :
  youtube_extractor.extract_video_id (lit "hello") = None /\
  youtube_extractor.get_transcript_from_url (libs := Samples.reading []) (lit "hello")
    = invalid_url.
Proof.
  destruct (id_characters_only (libs := Samples.reading []) (lit "hello") eq_refl)
    as (Hid & Hget).
  split; [ exact Hid | apply Hget; discriminate ].
Defined.

Lemma marked_url_recognised_witness :
  youtube_extractor.extract_video_id
    (lit "https://www.youtube.com/watch?v=dQw4w9WgXcQ&t=1")
  = Some (lit "dQw4w9WgXcQ").
Proof.
  apply (marked_url_recognised (lit "https://www.") (lit "youtube.com/watch?v=")
           (lit "dQw4w9WgXcQ") (lit "&t=1")).
  - vm_compute. intuition discriminate.
  - left. reflexivity.
  - reflexivity.
  - reflexivity.
Defined.

Lemma bare_id_with_line_feed_witness :
  youtube_extractor.extract_video_id (lit "dQw4w9WgXcQ" ++ [10%N])
  = Some (lit "dQw4w9WgXcQ").
Proof.
  exact (bare_id_with_line_feed (lit "dQw4w9WgXcQ") eq_refl eq_refl).
Defined.


(** ** Documents *)

Section Documents.
Context {libs : Libraries}.
Import document_parser.

Lemma labelled_pages_in pages : forall n entry,
  In entry (labelled_pages n pages) <->
  exists k t, nth_error pages k = Some t /\ nonblank t = true /\
              entry = page_entry (n + Z.of_nat k) t.
Proof.
  induction pages as [ | t pages IH ]; intros n entry.
  - simpl. split; [ intros [] | intros (k & t & Hnth & _) ].
    destruct k; discriminate Hnth.
  - cbn [labelled_pages]. fold (nonblank t). split.
    + intros Hin. destruct (nonblank t) eqn:Ht.
      * destruct Hin as [ <- | Hin ].
        -- exists 0%nat, t. rewrite Z.add_0_r. auto.
        -- apply IH in Hin. destruct Hin as (k & t' & Hnth & Ht' & ->).
           exists (S k), t'. repeat split; auto.
           replace (n + Z.of_nat (S k)) with (n + 1 + Z.of_nat k) by lia. reflexivity.
      * apply IH in Hin. destruct Hin as (k & t' & Hnth & Ht' & ->).
        exists (S k), t'. repeat split; auto.
        replace (n + Z.of_nat (S k)) with (n + 1 + Z.of_nat k) by lia. reflexivity.
    + intros (k & t' & Hnth & Ht' & ->). destruct k as [ | k ].
      * injection Hnth as <-. rewrite Ht', Z.add_0_r. left. reflexivity.
      * assert (Hrest : In (page_entry (n + Z.of_nat (S k)) t') (labelled_pages (n + 1) pages)).
        { apply IH. exists k, t'. repeat split; auto.
          replace (n + Z.of_nat (S k)) with (n + 1 + Z.of_nat k) by lia. reflexivity. }
        destruct (nonblank t); [ right | ]; exact Hrest.
Qed.

Lemma labelled_pages_count pages : forall n,
  List.length (labelled_pages n pages) = List.length (filter nonblank pages).
Proof.
  induction pages as [ | t pages IH ]; intros n; [ reflexivity | ].
  cbn [labelled_pages filter]. fold (nonblank t).
  destruct (nonblank t); simpl; rewrite IH; reflexivity.
Qed.

Lemma join_nil_iff sep parts :
  Forall (fun p => p <> []) parts -> (join sep parts = [] <-> parts = []).
Proof.
  intros Hparts. split; [ | intros ->; reflexivity ].
  destruct parts as [ | p rest ]; [ reflexivity | ].
  inversion Hparts as [ | ? ? Hp _ ]; subst.
  destruct p as [ | c p ]; [ contradiction | ].
  destruct rest; discriminate.
Qed.

Lemma labelled_pages_nonempty pages : forall n,
  Forall (fun p : str => p <> []) (labelled_pages n pages).
Proof.
  induction pages as [ | t pages IH ]; intros n; cbn [labelled_pages]; [ constructor | ].
  destruct (truthy_str (PyStr.strip t)); [ constructor; [ discriminate | apply IH ] | apply IH ].
Qed.
Lemma filter_shorter {A} (f : A -> bool) l : len (filter f l) <= len l.
Proof.
  unfold len. induction l as [ | x l IH ]; simpl; [ lia | ].
  destruct (f x); simpl List.length; lia.
Qed.

Lemma parse_pdf_text_empty pages :
  join [10%N; 10%N] (labelled_pages 1 pages) = [] <-> filter nonblank pages = [].
Proof.
  rewrite (join_nil_iff _ _ (labelled_pages_nonempty pages 1)).
  pose proof (labelled_pages_count pages 1) as Hcount.
  split; intros Hnil.
  - rewrite Hnil in Hcount. destruct (filter nonblank pages); [ reflexivity | discriminate ].
  - rewrite Hnil in Hcount. destruct (labelled_pages 1 pages); [ reflexivity | discriminate ].
Qed.

(** X22.  For a PDF that opens, [parse_pdf] succeeds, and what it returns
    as [pages] is not the number of pages of the document but the number of
    pages that have text, which can be smaller; the text returned is empty
    exactly when no page has text. *)
Theorem pdf_page_count file pages :
  pdf_pages file = Ok pages ->
  ex_success (parse_pdf file) = true /\
  ex_pages (parse_pdf file) = Some (len (filter nonblank pages)) /\
  len (filter nonblank pages) <= len pages /\
  (ex_text (parse_pdf file) = [] <-> filter nonblank pages = []).
Proof.
  intros Hopen. unfold parse_pdf. rewrite Hopen. cbn [ex_success ex_pages ex_text].
  split; [ reflexivity | split; [ | split ] ].
  - unfold len. rewrite labelled_pages_count. reflexivity.
  - apply filter_shorter.
  - apply parse_pdf_text_empty.
Qed.

Lemma labelled_pages_enumerate pages : forall n,
  labelled_pages n pages =
    map (fun numbered => page_entry (fst numbered) (snd numbered))
        (filter (fun numbered => nonblank (snd numbered)) (enumerate n pages)).
Proof.
  induction pages as [ | t pages IH ]; intros n; [ reflexivity | ].
  cbn [labelled_pages enumerate filter snd]. fold (nonblank t).
  destruct (nonblank t); cbn [map fst snd]; rewrite IH; reflexivity.
Qed.

(** X23.  The text [parse_pdf] returns is made of one entry for each page
    that has text and of nothing else, in the order of the pages, joined by
    blank lines; each entry is the text of its page under the number the
    page has in the document (from 1): a blank page is skipped but still
    counted in the numbering of the pages after it. *)
Theorem pdf_labels_are_page_numbers file pages :
  pdf_pages file = Ok pages ->
  ex_text (parse_pdf file) = join [10%N; 10%N] (page_entries pages) /\
  List.length (page_entries pages) = List.length (filter nonblank pages) /\
  (forall entry,
     In entry (page_entries pages) <->
     exists k page_text,
       nth_error pages k = Some page_text /\ nonblank page_text = true /\
       entry = page_entry (1 + Z.of_nat k) page_text).
Proof.
  intros Hopen. unfold page_entries.
  split; [ | split ].
  - unfold parse_pdf. rewrite Hopen. cbn [ex_text].
    rewrite labelled_pages_enumerate. reflexivity.
  - rewrite <- labelled_pages_enumerate. apply labelled_pages_count.
  - intros entry. rewrite <- labelled_pages_enumerate. apply labelled_pages_in.
Qed.

End Documents.

Lemma pdf_page_count_witness :
  ex_pages (document_parser.parse_pdf
              (libs := Samples.reading [lit "Intro"; lit "  "; lit "More"]) Samples.scan)
    = Some 2 /\
  len [lit "Intro"; lit "  "; lit "More"] = 3.
Proof.
  split; [ | reflexivity ].
  exact (proj1 (proj2 (pdf_page_count
                         (libs := Samples.reading [lit "Intro"; lit "  "; lit "More"])
                         Samples.scan _ eq_refl))).
Defined.

Lemma pdf_labels_are_page_numbers_witness :
  ex_text (document_parser.parse_pdf
             (libs := Samples.reading [lit "Intro"; lit "  "; lit "More"]) Samples.scan)
    = join [10%N; 10%N] [page_entry 1 (lit "Intro"); page_entry 3 (lit "More")].
Proof.
  exact (proj1 (pdf_labels_are_page_numbers
                  (libs := Samples.reading [lit "Intro"; lit "  "; lit "More"])
                  Samples.scan _ eq_refl)).
Defined.

(** ** The application as wired *)

Section Wired.
Context {libs : Libraries} {world : Externals}.

Lemma blank_pages_no_entry pages : forall n,
  forallb (fun t => negb (nonblank t)) pages = true ->
  document_parser.labelled_pages n pages = [].
Proof.
  induction pages as [ | t pages IH ]; intros n; [ reflexivity | ].
  cbn [forallb document_parser.labelled_pages]. fold (nonblank t).
  destruct (nonblank t); [ discriminate | ]. apply IH.
Qed.

(** X24.  In the application as wired, a PDF that opens but whose pages are
    all blank (a scan without a text layer) is not reported as a failure:
    the extraction succeeds with the empty text, and [process_content] goes
    on to ask the model for a summary of nothing. *)
Theorem blank_pdf_reaches_model file pages num_questions model_name st h llm :
  PyStr.endswith (lit ".pdf") (str_lower (file_name file)) = true ->
  pdf_pages file = Ok pages ->
  forallb (fun t => negb (nonblank t)) pages = true ->
  ai_engine.get_llm model_name = Ok llm ->
  ex_success (document_parser.parse_document file (file_name file)) = true /\
  exists rest,
    invocations (snd (app.process_content (world := wired libs world)
                        (app.document file) num_questions model_name st h))
      = ai_engine.SUMMARY_PROMPT [] :: rest.
Proof.
  intros Hname Hopen Hblank Hllm.
  assert (Hparse : document_parser.parse_document file (file_name file) =
                   {| ex_success := true; ex_text := []; ex_error := None;
                      ex_language := None; ex_pages := Some 0; ex_slides := None |}).
  { unfold document_parser.parse_document. cbv zeta. rewrite Hname.
    unfold document_parser.parse_pdf. rewrite Hopen. cbv zeta.
    rewrite (blank_pages_no_entry _ _ Hblank). reflexivity. }
  split; [ rewrite Hparse; reflexivity | ].
  destruct (short_text_first_call (world := wired libs world)
              (app.document file) num_questions model_name st h llm)
    as (rest & Hcalls).
  - cbn [app.extract fst parse_document wired]. rewrite Hparse. reflexivity.
  - cbn [app.extract fst parse_document wired]. rewrite Hparse. cbn. lia.
  - exact Hllm.
  - exists rest. rewrite Hcalls.
    cbn [app.extract fst parse_document wired]. rewrite Hparse. reflexivity.
Qed.

End Wired.

Lemma blank_pdf_reaches_model_witness :
  exists rest,
    invocations
      (snd (app.process_content
              (world := wired (Samples.reading [lit "  "; [10%N]]) Demo.steady)
              (app.document Samples.scan) 5 None app.cleared []))
    = ai_engine.SUMMARY_PROMPT [] :: rest.
Proof.
  exact (proj2 (blank_pdf_reaches_model
                  (libs := Samples.reading [lit "  "; [10%N]]) (world := Demo.steady)
                  Samples.scan _ 5 None app.cleared [] Demo.gemini_pro
                  eq_refl eq_refl eq_refl eq_refl)).
Defined.


